(** * fugue: the type-directed call adapter

    A shallow embedding of [fugue/dataframe/function_wrapper.py]
    ([DataFrameFunctionWrapper] and the family of tabular parameter
    handlers) and of [fugue/workflow/module.py] ([_ModuleFunctionWrapper]),
    together with the properties of the binding protocol, of the handlers
    and of the workflow inference. *)

From Stdlib Require Import List String Ascii ZArith Bool Lia.
Import ListNotations.
Local Open Scope string_scope.

Set Implicit Arguments.
Set Warnings "-register-all".

(** ** Python runtime: exceptions, results, insertion-ordered dicts *)

Module Py.

(** The built-in exception classes raised on the modelled paths. *)
Inductive exn_type :=
| TypeError
| ValueError
| AssertionError
| AttributeError
| IndexError.

(** An exception instance: its class and its message.  The message type
    is chosen by each module (an f-string keeps its interpolated parts). *)
Record exn (Msg : Type) := mkExn {
  exn_cls : exn_type;
  exn_msg : Msg
}.

Inductive result (E A : Type) :=
| Ok (a : A)
| Raise (e : E).
Arguments Ok {E A} a.
Arguments Raise {E A} e.

Definition bind {E A B} (m : result E A) (f : A -> result E B) : result E B :=
  match m with
  | Ok a => f a
  | Raise e => Raise e
  end.

(** What [assert_or_throw] accepts as its second argument: an exception
    instance (possibly produced by a lambda), or any other object, which
    is stringified into an [AssertionError]. *)
Inductive throwable (Msg : Type) :=
| ThrowExn (e : exn Msg)
| ThrowStr (s : Msg).

(** [triad.assert_or_throw(bool_exp, exception)]. *)
Definition assert_or_throw {Msg} (bool_exp : bool) (exception : throwable Msg)
  : result (exn Msg) unit :=
  if bool_exp then Ok tt
  else match exception with
       | ThrowExn e => Raise e
       | ThrowStr s => Raise (mkExn AssertionError s)
       end.

(** A [dict]: keys are unique, insertion order is kept. *)
Section Dict.
Variable V : Type.

Definition dict := list (string * V).

Fixpoint dict_get (k : string) (d : dict) : option V :=
  match d with
  | [] => None
  | (k', v) :: d' => if String.eqb k k' then Some v else dict_get k d'
  end.

(** [k in d]. *)
Definition dict_in (k : string) (d : dict) : bool :=
  match dict_get k d with Some _ => true | None => false end.

(** [d[k] = v]: overwrite in place, or append a new entry. *)
Fixpoint dict_set (k : string) (v : V) (d : dict) : dict :=
  match d with
  | [] => [(k, v)]
  | (k', v') :: d' =>
      if String.eqb k k' then (k', v) :: d' else (k', v') :: dict_set k v d'
  end.

(** [del d[k]]. *)
Fixpoint dict_del (k : string) (d : dict) : dict :=
  match d with
  | [] => []
  | (k', v') :: d' =>
      if String.eqb k k' then d' else (k', v') :: dict_del k d'
  end.

(** [d.update(other)]. *)
Definition dict_update (d other : dict) : dict :=
  fold_left (fun acc kv => dict_set (fst kv) (snd kv) acc) other d.

Definition dict_keys (d : dict) : list string := map fst d.
Definition dict_values (d : dict) : list V := map snd d.

End Dict.

End Py.
Import Py.

Declare Scope py_scope.
Delimit Scope py_scope with py.
Notation "x <- c1 ;; c2" := (Py.bind c1 (fun x => c2))
  (at level 61, c1 at next level, right associativity) : py_scope.
Notation "c1 ;;; c2" := (Py.bind c1 (fun _ => c2))
  (at level 61, right associativity) : py_scope.

(** ** Regular expressions, as far as the signature patterns use them *)

Module Re.

Inductive regex :=
| Empty                        (* matches nothing *)
| Eps                          (* the empty string *)
| Chr (c : ascii)              (* a literal character *)
| Cls (cs : list ascii)        (* a character class [...] *)
| Seq (r1 r2 : regex)          (* r1 r2 *)
| Alt (r1 r2 : regex)          (* r1|r2 *)
| Star (r : regex).            (* r* *)

(** [r?] and [r+]. *)
Definition Opt (r : regex) : regex := Alt r Eps.
Definition Plus (r : regex) : regex := Seq r (Star r).

Fixpoint nullable (r : regex) : bool :=
  match r with
  | Empty => false
  | Eps => true
  | Chr _ => false
  | Cls _ => false
  | Seq r1 r2 => nullable r1 && nullable r2
  | Alt r1 r2 => nullable r1 || nullable r2
  | Star _ => true
  end.

(** The derivative of [r] by the character [c]. *)
Fixpoint deriv (c : ascii) (r : regex) : regex :=
  match r with
  | Empty => Empty
  | Eps => Empty
  | Chr c' => if Ascii.eqb c c' then Eps else Empty
  | Cls cs => if existsb (Ascii.eqb c) cs then Eps else Empty
  | Seq r1 r2 =>
      if nullable r1
      then Alt (Seq (deriv c r1) r2) (deriv c r2)
      else Seq (deriv c r1) r2
  | Alt r1 r2 => Alt (deriv c r1) (deriv c r2)
  | Star r0 => Seq (deriv c r0) (Star r0)
  end.

(** [r] matches the whole of [s]. *)
Fixpoint matches (r : regex) (s : list ascii) : bool :=
  match s with
  | [] => nullable r
  | c :: s' => matches (deriv c r) s'
  end.

Definition newline : ascii := Ascii.ascii_of_nat 10.

(** [re.match("^r$", s)]: the pattern is anchored at both ends, and [$]
    matches at the end of the string and also just before a newline that
    ends the string. *)
Definition re_match (r : regex) (s : string) : bool :=
  let l := list_ascii_of_string s in
  matches r l
  || match rev l with
     | c :: l' => Ascii.eqb c newline && matches r (rev l')
     | [] => false
     end.

(** The strings of a regular expression. *)
Inductive lang : regex -> list ascii -> Prop :=
| LEps : lang Eps []
| LChr c : lang (Chr c) [c]
| LCls cs c : In c cs -> lang (Cls cs) [c]
| LSeq r1 r2 s1 s2 :
    lang r1 s1 -> lang r2 s2 -> lang (Seq r1 r2) (s1 ++ s2)
| LAltL r1 r2 s : lang r1 s -> lang (Alt r1 r2) s
| LAltR r1 r2 s : lang r2 s -> lang (Alt r1 r2) s
| LStarNil r : lang (Star r) []
| LStarApp r s1 s2 :
    lang r s1 -> lang (Star r) s2 -> lang (Star r) (s1 ++ s2).

End Re.

(** ** fugue/dataframe/function_wrapper.py *)

Module function_wrapper.

(** *** Concrete tabular shapes *)

(** A cell of a row. *)
Inductive cell :=
| CNull
| CInt (z : Z)
| CStr (s : string).

Definition row := list cell.                  (* List[Any] *)
Definition dict_row := list (string * cell).  (* Dict[str, Any] *)

(** [triad.Schema]: ordered column names with their type expressions. *)
Definition Schema := list (string * string).

(** [==] on schemas. *)
Fixpoint Schema_eqb (a b : Schema) : bool :=
  match a, b with
  | [], [] => true
  | (n1, t1) :: a', (n2, t2) :: b' =>
      String.eqb n1 n2 && String.eqb t1 t2 && Schema_eqb a' b'
  | _, _ => false
  end.

Definition Schema_names (s : Schema) : list string := map fst s.

(** [pandas.DataFrame]: [shape] is [(number of rows, number of columns)]. *)
Record pd_DataFrame := mk_pd {
  pd_columns : list string;
  pd_rows : list row
}.

Definition pd_shape (f : pd_DataFrame) : Z * Z :=
  (Z.of_nat (List.length (pd_rows f)), Z.of_nat (List.length (pd_columns f))).

(** [pyarrow.Table]: the class has [schema], [num_rows], [num_columns]
    and [shape]; it has no attribute named [count]. *)
Record pa_Table := mk_pa {
  pa_columns : list string;
  pa_rows : list row
}.

Definition pa_shape (t : pa_Table) : Z * Z :=
  (Z.of_nat (List.length (pa_rows t)), Z.of_nat (List.length (pa_columns t))).

(** *** Handlers *)

(** The registered subclasses of [_DataFrameParamBase]. *)
Inductive df_handler :=
| DataFrameParam
| LocalDataFrameParam
| _LocalNoSchemaDataFrameParam
| _ListListParam
| _IterableListParam
| _EmptyAwareIterableListParam
| _ListDictParam
| _IterableDictParam
| _EmptyAwareIterableDictParam
| _PandasParam
| _IterablePandasParam
| _PyArrowTableParam
| _IterableArrowParam.

(** What [isinstance] distinguishes among [AnnotatedParam]s in [run]. *)
Inductive param_kind :=
| PositionalParam                 (* _PositionalParam: [*args] *)
| KeywordParam                    (* _KeywordParam: [**kwargs] *)
| TabularParam (h : df_handler)   (* isinstance(v, _DataFrameParamBase) *)
| OtherParam (code : string).     (* any other AnnotatedParam, e.g. _DataFramesParam *)

Record AnnotatedParam := mkAnnotatedParam {
  kind : param_kind;
  required : bool
}.

Definition is_DataFrameParamBase (v : AnnotatedParam) : bool :=
  match kind v with TabularParam _ => true | _ => false end.

Definition need_schema (h : df_handler) : bool :=
  match h with
  | DataFrameParam | LocalDataFrameParam => false
  | _PandasParam | _IterablePandasParam
  | _PyArrowTableParam | _IterableArrowParam => false
  | _ => true
  end.

Definition format_hint (h : df_handler) : option string :=
  match h with
  | _PandasParam | _IterablePandasParam => Some "pandas"
  | _PyArrowTableParam | _IterableArrowParam => Some "pyarrow"
  | _ => None
  end.

(** The class each handler class is derived from, as the [class]
    statements give it; [None] for a direct subclass of
    [_DataFrameParamBase]. *)
Definition base_class (h : df_handler) : option df_handler :=
  match h with
  | DataFrameParam => None
  | LocalDataFrameParam => Some DataFrameParam
  | _LocalNoSchemaDataFrameParam => Some LocalDataFrameParam
  | _ListListParam | _IterableListParam | _EmptyAwareIterableListParam
  | _ListDictParam | _IterableDictParam | _EmptyAwareIterableDictParam =>
      Some _LocalNoSchemaDataFrameParam
  | _PandasParam | _IterablePandasParam
  | _PyArrowTableParam | _IterableArrowParam => Some LocalDataFrameParam
  end.

Definition df_handler_eqb (a b : df_handler) : bool :=
  match a, b with
  | DataFrameParam, DataFrameParam
  | LocalDataFrameParam, LocalDataFrameParam
  | _LocalNoSchemaDataFrameParam, _LocalNoSchemaDataFrameParam
  | _ListListParam, _ListListParam
  | _IterableListParam, _IterableListParam
  | _EmptyAwareIterableListParam, _EmptyAwareIterableListParam
  | _ListDictParam, _ListDictParam
  | _IterableDictParam, _IterableDictParam
  | _EmptyAwareIterableDictParam, _EmptyAwareIterableDictParam
  | _PandasParam, _PandasParam
  | _IterablePandasParam, _IterablePandasParam
  | _PyArrowTableParam, _PyArrowTableParam
  | _IterableArrowParam, _IterableArrowParam => true
  | _, _ => false
  end.

(** [issubclass(h, c)], walking up the bases (the hierarchy is three
    levels deep). *)
Fixpoint issubclass_fuel (fuel : nat) (h c : df_handler) : bool :=
  df_handler_eqb h c
  || match fuel, base_class h with
     | S fuel', Some b => issubclass_fuel fuel' b c
     | _, _ => false
     end.

Definition issubclass (h c : df_handler) : bool := issubclass_fuel 3 h c.

(** *** Python values and messages *)

Section Values.
Variable DF : Type.

(** The objects that reach [run]: call arguments, the context, and what
    the wrapped function returns. *)
Inductive value :=
| VNone
| VInt (z : Z)
| VStr (s : string)
| VObj (cls : string)                          (* any other object *)
| VDataFrame (d : DF)                          (* isinstance(_, DataFrame) *)
| VDataFrames (ds : list (string * DF))        (* DataFrames *)
| VListList (rows : list row)                  (* List[List[Any]] *)
| VIterableList (rows : list row)              (* Iterable[List[Any]] *)
| VEmptyAwareIterableList (rows : list row)
| VListDict (rows : list dict_row)             (* List[Dict[str, Any]] *)
| VIterableDict (rows : list dict_row)
| VEmptyAwareIterableDict (rows : list dict_row)
| VPandas (f : pd_DataFrame)                   (* pd.DataFrame *)
| VIterablePandas (fs : list pd_DataFrame)
| VArrow (t : pa_Table)                        (* pa.Table *)
| VIterableArrow (ts : list pa_Table).

(** The pieces of an f-string: literal text and interpolated objects. *)
Inductive frag :=
| Lit (s : string)
| FmtName (k : string)                         (* {k} *)
| FmtValue (v : value)                         (* {p[k]} *)
| FmtDict (p : dict value)                     (* {p} *)
| FmtSchema (s : option Schema)                (* {output.schema}, {schema} *)
| FmtParam (v : AnnotatedParam)                (* {self} *)
| FmtAttr (v : value) (attr : string).         (* 'T' object has no attribute 'a' *)

Definition message := list frag.
Definition error := exn message.

Definition isinstance_DataFrame (v : value) : bool :=
  match v with VDataFrame _ => true | _ => false end.

End Values.

Arguments VNone {DF}.
Arguments VInt {DF} z.
Arguments VStr {DF} s.
Arguments VObj {DF} cls.
Arguments VListList {DF} rows.
Arguments VIterableList {DF} rows.
Arguments VEmptyAwareIterableList {DF} rows.
Arguments VListDict {DF} rows.
Arguments VIterableDict {DF} rows.
Arguments VEmptyAwareIterableDict {DF} rows.
Arguments VPandas {DF} f.
Arguments VIterablePandas {DF} fs.
Arguments VArrow {DF} t.
Arguments VIterableArrow {DF} ts.
Arguments Lit {DF} s.
Arguments FmtName {DF} k.
Arguments FmtSchema {DF} s.
Arguments FmtParam {DF} v.

(** *** The abstract tabular-dataset handle *)

(** Modelled from the spec: the abstract tabular-dataset handle
    ([fugue.dataframe.DataFrame] and its realized constructors live in
    other files of the package).  The handle exposes [schema],
    [is_bounded], [count()] (valid only when bounded), the row-sequence
    forms [as_array]/[as_array_iterable]/[as_dict_iterable], the realizers
    [as_pandas]/[as_arrow]; the constructors wrap a concrete value and a
    schema into a new handle and may raise.  A lazy sequence is
    represented by the list of the elements it yields. *)
Class DataFrameAPI (DataFrame : Type) := {
  schema : DataFrame -> Schema;
  is_bounded : DataFrame -> bool;
  df_count : DataFrame -> Z;
  as_array : DataFrame -> list row;
  as_array_iterable : DataFrame -> list row;
  as_dict_iterable : DataFrame -> list dict_row;
  as_pandas : DataFrame -> pd_DataFrame;
  as_arrow : DataFrame -> pa_Table;
  to_local_df : DataFrame -> DataFrame;
  (* [Some subs] exactly for a LocalDataFrameIterableDataFrame, whose
     [native] yields the frames [subs] *)
  native : DataFrame -> option (list DataFrame);
  ArrayDataFrame : list row -> option Schema -> result (error DataFrame) DataFrame;
  IterableDataFrame : list row -> option Schema -> result (error DataFrame) DataFrame;
  PandasDataFrame : pd_DataFrame -> option Schema -> result (error DataFrame) DataFrame;
  ArrowDataFrame : pa_Table -> option Schema -> result (error DataFrame) DataFrame;
  LocalDataFrameIterableDataFrame : list DataFrame -> result (error DataFrame) DataFrame;
  (* adf[_schema.names].alter_columns(_schema) *)
  select_alter_columns : DataFrame -> Schema -> result (error DataFrame) DataFrame;
  (* what Python does when an operation named by the string is applied to
     an object outside the shape the handler declares: duck typing
     decides, and the outcome is left open *)
  py_other : string -> value DataFrame -> result (error DataFrame) (value DataFrame)
}.

(** *** The conversion contract of the handlers *)

Section Handlers.
Context {DataFrame : Type} {api : DataFrameAPI DataFrame}.

Local Abbreviation value := (value DataFrame).
Local Abbreviation error := (error DataFrame).

Local Open Scope py_scope.

(** [getattr(obj, name)] failing: [AttributeError]. *)
Definition no_attribute {A} (obj : value) (name : string) : result error A :=
  Raise (mkExn AttributeError [FmtAttr obj name]).

(** [to_input_data(self, df, ctx)], per class. *)
Definition to_input_data (h : df_handler) (df : DataFrame) (ctx : value) : value :=
  match h with
  | DataFrameParam => VDataFrame df
  | LocalDataFrameParam | _LocalNoSchemaDataFrameParam =>
      VDataFrame (to_local_df df)
  | _ListListParam => VListList (as_array df)
  | _IterableListParam => VIterableList (as_array_iterable df)
  | _EmptyAwareIterableListParam =>
      VEmptyAwareIterableList (as_array_iterable df)
  | _ListDictParam => VListDict (as_dict_iterable (to_local_df df))
  | _IterableDictParam => VIterableDict (as_dict_iterable df)
  | _EmptyAwareIterableDictParam =>
      VEmptyAwareIterableDict (as_dict_iterable df)
  | _PandasParam => VPandas (as_pandas df)
  | _IterablePandasParam =>
      match native df with
      | None => VIterablePandas [as_pandas df]
      | Some subs => VIterablePandas (map as_pandas subs)
      end
  | _PyArrowTableParam => VArrow (as_arrow df)
  | _IterableArrowParam =>
      match native df with
      | None => VIterableArrow [as_arrow df]
      | Some subs => VIterableArrow (map as_arrow subs)
      end
  end.

(** [DataFrameParam.count] (repeated verbatim by [LocalDataFrameParam]). *)
Definition DataFrameParam_count (df : value) : result error value :=
  match df with
  | VDataFrame d =>
      if is_bounded d then Ok (VInt (df_count d))
      else Ok (VInt (Z.of_nat (List.length (as_array_iterable d))))
  | _ => py_other "count" df
  end.

(** [sum(_.shape[0] for _ in df)]. *)
Definition sum_shape0 {T} (shape : T -> Z * Z) (l : list T) : Z :=
  fold_left (fun acc t => (acc + fst (shape t))%Z) l 0%Z.

(** [count(self, df)], per class. *)
Definition count (h : df_handler) (df : value) : result error value :=
  match h with
  | DataFrameParam | LocalDataFrameParam | _LocalNoSchemaDataFrameParam =>
      DataFrameParam_count df
  | _ListListParam =>                       (* len(df) *)
      match df with
      | VListList rows => Ok (VInt (Z.of_nat (List.length rows)))
      | _ => py_other "count" df
      end
  | _IterableListParam =>                   (* sum(1 for _ in df) *)
      match df with
      | VIterableList rows => Ok (VInt (Z.of_nat (List.length rows)))
      | _ => py_other "count" df
      end
  | _EmptyAwareIterableListParam =>
      match df with
      | VEmptyAwareIterableList rows => Ok (VInt (Z.of_nat (List.length rows)))
      | _ => py_other "count" df
      end
  | _ListDictParam =>                       (* len(df) *)
      match df with
      | VListDict rows => Ok (VInt (Z.of_nat (List.length rows)))
      | _ => py_other "count" df
      end
  | _IterableDictParam =>                   (* sum(1 for _ in df) *)
      match df with
      | VIterableDict rows => Ok (VInt (Z.of_nat (List.length rows)))
      | _ => py_other "count" df
      end
  | _EmptyAwareIterableDictParam =>
      match df with
      | VEmptyAwareIterableDict rows => Ok (VInt (Z.of_nat (List.length rows)))
      | _ => py_other "count" df
      end
  | _PandasParam =>                         (* df.shape[0] *)
      match df with
      | VPandas f => Ok (VInt (fst (pd_shape f)))
      | _ => py_other "count" df
      end
  | _IterablePandasParam =>                 (* sum(_.shape[0] for _ in df) *)
      match df with
      | VIterablePandas fs => Ok (VInt (sum_shape0 pd_shape fs))
      | _ => py_other "count" df
      end
  | _PyArrowTableParam =>                   (* df.count() *)
      match df with
      | VArrow t => no_attribute df "count"
      | _ => py_other "count" df
      end
  | _IterableArrowParam =>                  (* sum(_.shape[0] for _ in df) *)
      match df with
      | VIterableArrow ts => Ok (VInt (sum_shape0 pa_shape ts))
      | _ => py_other "count" df
      end
  end.

(** [Schema(schema)] on an argument that is not already a [Schema]:
    [None] gives the empty schema. *)
Definition Schema_of (s : option Schema) : Schema :=
  match s with Some x => x | None => [] end.

(** [[row[x] for x in schema.names]]; [None] when a name is missing. *)
Fixpoint project (names : list string) (r : dict_row) : option row :=
  match names with
  | [] => Some []
  | x :: names' =>
      match dict_get x r, project names' r with
      | Some c, Some cs => Some (c :: cs)
      | _, _ => None
      end
  end.

Fixpoint project_all (names : list string) (rs : list dict_row)
  : option (list row) :=
  match rs with
  | [] => Some []
  | r :: rs' =>
      match project names r, project_all names rs' with
      | Some x, Some xs => Some (x :: xs)
      | _, _ => None
      end
  end.

Fixpoint mapM {A B} (f : A -> result error B) (l : list A)
  : result error (list B) :=
  match l with
  | [] => Ok []
  | a :: l' => b <- f a ;; bs <- mapM f l' ;; Ok (b :: bs)
  end.

(** [DataFrameParam.to_output_df] (repeated verbatim by
    [LocalDataFrameParam]): the produced handle is returned as it is when
    no schema is declared or the schemas agree. *)
Definition DataFrameParam_to_output_df
  (output : value) (schema_ : option Schema) (ctx : value)
  : result error value :=
  match schema_ with
  | None => Ok output
  | Some s =>
      match output with
      | VDataFrame d =>
          assert_or_throw (Schema_eqb (schema d) s)
            (ThrowStr [Lit "Output schema mismatch ";
                       FmtSchema (Some (schema d)); Lit " vs ";
                       FmtSchema schema_]) ;;;
          Ok output
      | _ => py_other "to_output_df" output
      end
  end.

(** The three row-dict handlers share one body. *)
Definition dict_rows_to_output_df
  (output : value) (rows : list dict_row) (schema_ : option Schema)
  : result error value :=
  let schema_ := Schema_of schema_ in
  match project_all (Schema_names schema_) rows with
  | Some rs => d <- IterableDataFrame rs (Some schema_) ;; Ok (VDataFrame d)
  | None => py_other "to_output_df" output
  end.

(** [to_output_df(self, output, schema, ctx)], per class. *)
Definition to_output_df
  (h : df_handler) (output : value) (schema_ : option Schema) (ctx : value)
  : result error value :=
  match h with
  | DataFrameParam | LocalDataFrameParam | _LocalNoSchemaDataFrameParam =>
      DataFrameParam_to_output_df output schema_ ctx
  | _ListListParam =>
      match output with
      | VListList rows => d <- ArrayDataFrame rows schema_ ;; Ok (VDataFrame d)
      | _ => py_other "to_output_df" output
      end
  | _IterableListParam =>
      match output with
      | VIterableList rows =>
          d <- IterableDataFrame rows schema_ ;; Ok (VDataFrame d)
      | _ => py_other "to_output_df" output
      end
  | _EmptyAwareIterableListParam =>
      match output with
      | VEmptyAwareIterableList rows =>
          d <- IterableDataFrame rows schema_ ;; Ok (VDataFrame d)
      | _ => py_other "to_output_df" output
      end
  | _ListDictParam =>
      match output with
      | VListDict rows => dict_rows_to_output_df output rows schema_
      | _ => py_other "to_output_df" output
      end
  | _IterableDictParam =>
      match output with
      | VIterableDict rows => dict_rows_to_output_df output rows schema_
      | _ => py_other "to_output_df" output
      end
  | _EmptyAwareIterableDictParam =>
      match output with
      | VEmptyAwareIterableDict rows =>
          dict_rows_to_output_df output rows schema_
      | _ => py_other "to_output_df" output
      end
  | _PandasParam =>
      match output with
      | VPandas f => d <- PandasDataFrame f schema_ ;; Ok (VDataFrame d)
      | _ => py_other "to_output_df" output
      end
  | _IterablePandasParam =>
      match output with
      | VIterablePandas fs =>
          ds <- mapM (fun f => PandasDataFrame f schema_) fs ;;
          d <- LocalDataFrameIterableDataFrame ds ;;
          Ok (VDataFrame d)
      | _ => py_other "to_output_df" output
      end
  | _PyArrowTableParam =>
      match output with
      | VArrow t => d <- ArrowDataFrame t schema_ ;; Ok (VDataFrame d)
      | _ => Raise (mkExn AssertionError [])   (* assert isinstance(output, pa.Table) *)
      end
  | _IterableArrowParam =>
      match output with
      | VIterableArrow ts =>
          ds <- mapM (fun t =>
                        adf <- ArrowDataFrame t None ;;
                        match schema_ with
                        | Some s =>
                            if Schema_eqb (schema adf) s then Ok adf
                            else select_alter_columns adf s
                        | None => Ok adf
                        end) ts ;;
          d <- LocalDataFrameIterableDataFrame ds ;;
          Ok (VDataFrame d)
      | _ => py_other "to_output_df" output
      end
  end.

(** *** Construction of a tabular handler *)




(** *** DataFrameFunctionWrapper *)

(** The state kept by [FunctionWrapper]: the resolved parameters (an
    [IndexedOrderedDict], in declared order), the resolved return
    annotation and the wrapped function, which is called with keyword
    arguments only. *)
Record DataFrameFunctionWrapper := mkWrapper {
  _params : list (string * AnnotatedParam);
  _rt : AnnotatedParam;
  _func : dict value -> result error value
}.

(** [need_output_schema]. *)
Definition need_output_schema (self : DataFrameFunctionWrapper) : bool :=
  match kind (_rt self) with
  | TabularParam h => need_schema h
  | _ => false
  end.

(** The loop of [get_format_hint] over [self._params.values()]. *)
Fixpoint first_format_hint (vs : list AnnotatedParam) : option string :=
  match vs with
  | [] => None
  | v :: vs' =>
      match kind v with
      | TabularParam h =>
          match format_hint h with
          | Some hint => Some hint
          | None => first_format_hint vs'
          end
      | _ => first_format_hint vs'
      end
  end.

(** [get_format_hint]. *)
Definition get_format_hint (self : DataFrameFunctionWrapper) : option string :=
  match first_format_hint (dict_values (_params self)) with
  | Some hint => Some hint
  | None =>
      match kind (_rt self) with
      | TabularParam h => format_hint h
      | _ => None
      end
  end.

(** [IndexedOrderedDict.get_key_by_index]. *)
Definition get_key_by_index (ps : list (string * AnnotatedParam)) (i : nat)
  : result error string :=
  match nth_error (dict_keys ps) i with
  | Some k => Ok k
  | None => Raise (mkExn IndexError [Lit "list index out of range"])
  end.

(** [for i in range(len(args)): p[self._params.get_key_by_index(i)] = args[i]],
    from index [i] on. *)
Fixpoint merge_positional (ps : list (string * AnnotatedParam)) (i : nat)
  (args : list value) (p : dict value) : result error (dict value) :=
  match args with
  | [] => Ok p
  | a :: args' =>
      k <- get_key_by_index ps i ;;
      merge_positional ps (S i) args' (dict_set k a p)
  end.

(** The locals of the binding loop of [run]. *)
Record binding := mkBinding {
  p_ : dict value;          (* p: the pending argument pool *)
  has_kw : bool;
  rargs : dict value
}.

(** One iteration of [for k, v in self._params.items()]. *)
Definition bind_param (ctx : value) (k : string) (v : AnnotatedParam)
  (b : binding) : result error binding :=
  match kind v with
  | PositionalParam => Ok b
  | KeywordParam => Ok (mkBinding (p_ b) true (rargs b))
  | knd =>
      match dict_get k (p_ b) with
      | Some x =>
          r <- match knd with
               | TabularParam h =>
                   match x with
                   | VDataFrame df => Ok (to_input_data h df ctx)
                   | _ => Raise (mkExn TypeError
                                   [FmtValue x; Lit " is not a DataFrame"])
                   end
               | _ => Ok x
               end ;;
          Ok (mkBinding (dict_del k (p_ b)) (has_kw b) (dict_set k r (rargs b)))
      | None =>
          if required v
          then Raise (mkExn ValueError
                        [FmtName k; Lit " is required by not given"])
          else Ok b
      end
  end.

Fixpoint bind_params (ctx : value) (ps : list (string * AnnotatedParam))
  (b : binding) : result error binding :=
  match ps with
  | [] => Ok b
  | (k, v) :: ps' => b' <- bind_param ctx k v b ;; bind_params ctx ps' b'
  end.

(** [run], up to the call of the wrapped function: the keyword arguments
    [rargs] it is called with. *)
Definition bind_arguments (self : DataFrameFunctionWrapper)
  (args : list value) (kwargs : dict value) (ignore_unknown : bool)
  (ctx : value) : result error (dict value) :=
  p <- merge_positional (_params self) 0 args [] ;;
  let p := dict_update p kwargs in
  b <- bind_params ctx (_params self) (mkBinding p false []) ;;
  if has_kw b then Ok (dict_update (rargs b) (p_ b))
  else if negb ignore_unknown && (0 <? List.length (p_ b))%nat
       then Raise (mkExn ValueError
                     [FmtDict (p_ b); Lit " are not acceptable parameters"])
       else Ok (rargs b).

(** [run], after the call: what is done with the value [rt] returned by
    the wrapped function. *)
Definition handle_return (self : DataFrameFunctionWrapper) (rt : value)
  (output_schema : option Schema) (output : bool) (ctx : value)
  : result error value :=
  if negb output then
    match kind (_rt self) with
    | TabularParam h => count h rt ;;; Ok VNone
    | _ => Ok VNone
    end
  else
    match kind (_rt self) with
    | TabularParam h => to_output_df h rt output_schema ctx
    | _ => Ok rt
    end.

(** [run].  The second component lists the calls made to the wrapped
    function, each with the keyword arguments it received. *)
Definition run (self : DataFrameFunctionWrapper)
  (args : list value) (kwargs : dict value) (ignore_unknown : bool)
  (output_schema : option Schema) (output : bool) (ctx : value)
  : result error value * list (dict value) :=
  match bind_arguments self args kwargs ignore_unknown ctx with
  | Raise e => (Raise e, [])
  | Ok rargs =>
      (rt <- _func self rargs ;;
       handle_return self rt output_schema output ctx,
       [rargs])
  end.

(** *** Notions used to state the properties of [run] *)

(** The format hint a resolved binding declares, if it is a tabular
    handler that declares one. *)
Definition handler_hint (v : AnnotatedParam) : option string :=
  match kind v with
  | TabularParam h => format_hint h
  | _ => None
  end.

Definition has_hint (v : AnnotatedParam) : bool :=
  match handler_hint v with Some _ => true | None => false end.

(** A named parameter: neither the positional nor the keyword capture. *)
Definition is_named (v : AnnotatedParam) : bool :=
  match kind v with
  | PositionalParam | KeywordParam => false
  | _ => true
  end.

(** The pending pool [p] once the positional and the keyword arguments
    are merged. *)
Definition merged_pool (self : DataFrameFunctionWrapper)
  (args : list value) (kwargs : dict value) : result error (dict value) :=
  p <- merge_positional (_params self) 0 args [] ;;
  Ok (dict_update p kwargs).

(** A call value that the binding of [v] accepts. *)
Definition acceptable (v : AnnotatedParam) (x : value) : bool :=
  match kind v with
  | TabularParam _ => isinstance_DataFrame x
  | _ => true
  end.

(** What the wrapped function receives for the named parameter [v] bound
    to the call value [x]. *)
Definition passed_value (ctx : value) (v : AnnotatedParam) (x : value) : value :=
  match kind v, x with
  | TabularParam h, VDataFrame df => to_input_data h df ctx
  | _, _ => x
  end.

(** A named parameter that the pool [p] leaves unbound although it is
    required. *)
Definition missing_required (p : dict value) (kv : string * AnnotatedParam)
  : bool :=
  is_named (snd kv) && required (snd kv) && negb (dict_in (fst kv) p).

(** A tabular parameter bound in [p] to something that is not a
    [DataFrame]. *)
Definition not_a_DataFrame (p : dict value) (kv : string * AnnotatedParam)
  : bool :=
  match kind (snd kv), dict_get (fst kv) p with
  | TabularParam _, Some x => negb (isinstance_DataFrame x)
  | _, _ => false
  end.

(** The number of rows obtained by fully iterating the row-sequence form
    of a concrete value of one of the tabular shapes. *)
Definition num_rows (df : value) : option nat :=
  match df with
  | VDataFrame d => Some (List.length (as_array_iterable d))
  | VListList rows | VIterableList rows | VEmptyAwareIterableList rows =>
      Some (List.length rows)
  | VListDict rows | VIterableDict rows | VEmptyAwareIterableDict rows =>
      Some (List.length rows)
  | VPandas f => Some (List.length (pd_rows f))
  | VIterablePandas fs => Some (List.length (flat_map pd_rows fs))
  | VArrow t => Some (List.length (pa_rows t))
  | VIterableArrow ts => Some (List.length (flat_map pa_rows ts))
  | _ => None
  end.

(** The concrete values of the shape a handler converts. *)
Definition of_shape (h : df_handler) (df : value) : bool :=
  match h, df with
  | (DataFrameParam | LocalDataFrameParam | _LocalNoSchemaDataFrameParam),
    VDataFrame _ => true
  | _ListListParam, VListList _ => true
  | _IterableListParam, VIterableList _ => true
  | _EmptyAwareIterableListParam, VEmptyAwareIterableList _ => true
  | _ListDictParam, VListDict _ => true
  | _IterableDictParam, VIterableDict _ => true
  | _EmptyAwareIterableDictParam, VEmptyAwareIterableDict _ => true
  | _PandasParam, VPandas _ => true
  | _IterablePandasParam, VIterablePandas _ => true
  | _PyArrowTableParam, VArrow _ => true
  | _IterableArrowParam, VIterableArrow _ => true
  | _, _ => false
  end.

(** A parameter whose binding fails on the pool [p], and the error its
    binding raises. *)
Definition offending (p : dict value) (kv : string * AnnotatedParam) : bool :=
  not_a_DataFrame p kv || missing_required p kv.

Definition binding_error (p : dict value) (kv : string * AnnotatedParam)
  : error :=
  match kind (snd kv), dict_get (fst kv) p with
  | TabularParam _, Some x =>
      mkExn TypeError [FmtValue x; Lit " is not a DataFrame"]
  | _, _ =>
      mkExn ValueError [FmtName (fst kv); Lit " is required by not given"]
  end.

Definition is_KeywordParam (v : AnnotatedParam) : bool :=
  match kind v with KeywordParam => true | _ => false end.

(** [k] is the name of a declared named parameter. *)
Definition is_named_key (ps : list (string * AnnotatedParam)) (k : string)
  : bool :=
  existsb (fun kv => String.eqb (fst kv) k && is_named (snd kv)) ps.

(** The call arguments that no named parameter consumes, in the order of
    the pool. *)
Definition leftover (ps : list (string * AnnotatedParam)) (p : dict value)
  : dict value :=
  filter (fun kx => negb (is_named_key ps (fst kx))) p.

(** The named parameters that the pool binds, in declared order, each
    with the value handed to the wrapped function. *)
Definition bound_named (ctx : value) (ps : list (string * AnnotatedParam))
  (p : dict value) : dict value :=
  flat_map (fun kv =>
              if is_named (snd kv)
              then match dict_get (fst kv) p with
                   | Some x => [(fst kv, passed_value ctx (snd kv) x)]
                   | None => []
                   end
              else []) ps.

End Handlers.

End function_wrapper.

(** ** fugue/workflow/module.py *)

Module workflow_module.

(** A [FugueWorkflow] object, known by its identity ([is]). *)
Definition FugueWorkflow := nat.

(** The call arguments as [__call__] tells them apart. *)
Inductive value :=
| VWorkflow (wf : FugueWorkflow)            (* isinstance(_, FugueWorkflow) *)
| VWorkflowDataFrame (workflow : FugueWorkflow)
                                            (* a WorkflowDataFrame and its [.workflow] *)
| VWorkflowDataFrames (items : list (string * value))
                                            (* a WorkflowDataFrames and its [.items()] *)
| VOther (repr : string).                   (* any other object *)

Inductive frag :=
| Lit (s : string)
| FmtName (k : string)
| FmtValue (v : value).

Definition message := list frag.
Definition error := exn message.

(** The handler classes registered by this module, among all
    [AnnotatedParam]s. *)
Inductive AnnotatedParam :=
| _FugueWorkflowParam          (* code w *)
| _WorkflowDataFrameParam      (* code v *)
| _WorkflowDataFramesParam     (* code u *)
| OtherParam (code : string).

(** [_ModuleFunctionWrapper]: the resolved signature, and the inherited
    [FunctionWrapper.__call__] (binding and invocation of the wrapped
    function, defined in [fugue/collections/function_wrapper.py]). *)
Record _ModuleFunctionWrapper := mkModuleWrapper {
  _params : list (string * AnnotatedParam);
  _rt : AnnotatedParam;
  super_call : list value -> dict value -> result error value
}.

Local Open Scope py_scope.

Definition index_error {A} : result error A :=
  Raise (mkExn IndexError [Lit "list index out of range"]).

(** [has_input], [has_dfs_input], [has_no_output], [has_single_output],
    [has_multiple_output]. *)
Definition has_input (self : _ModuleFunctionWrapper) : bool :=
  existsb (fun x => match x with
                    | _WorkflowDataFrameParam | _WorkflowDataFramesParam => true
                    | _ => false
                    end) (dict_values (_params self)).

Definition has_dfs_input (self : _ModuleFunctionWrapper) : bool :=
  existsb (fun x => match x with
                    | _WorkflowDataFramesParam => true
                    | _ => false
                    end) (dict_values (_params self)).

Definition has_no_output (self : _ModuleFunctionWrapper) : bool :=
  negb match _rt self with
       | _WorkflowDataFrameParam | _WorkflowDataFramesParam => true
       | _ => false
       end.

Definition has_single_output (self : _ModuleFunctionWrapper) : bool :=
  match _rt self with _WorkflowDataFrameParam => true | _ => false end.

Definition has_multiple_output (self : _ModuleFunctionWrapper) : bool :=
  match _rt self with _WorkflowDataFramesParam => true | _ => false end.

(** [_first_annotation_is_workflow]:
    [isinstance(self._params.get_value_by_index(0), _FugueWorkflowParam)]. *)
Definition _first_annotation_is_workflow (self : _ModuleFunctionWrapper)
  : result error bool :=
  match nth_error (dict_values (_params self)) 0 with
  | Some _FugueWorkflowParam => Ok true
  | Some _ => Ok false
  | None => index_error
  end.

(** [_need_add_workflow]. *)
Definition _need_add_workflow (self : _ModuleFunctionWrapper)
  (args : list value) (kwargs : dict value) : result error bool :=
  first <- _first_annotation_is_workflow self ;;
  if negb first then Ok false
  else
    k <- match nth_error (dict_keys (_params self)) 0 with
         | Some k => Ok k
         | None => index_error
         end ;;
    if dict_in k kwargs then Ok false
    else match args with
         | VWorkflow _ :: _ => Ok false
         | _ => Ok true
         end.

Definition is_graph_bound (a : value) : bool :=
  match a with
  | VWorkflowDataFrame _ | VWorkflowDataFrames _ => true
  | _ => false
  end.

(** [select_args]: the positional, then the keyword arguments that are
    [WorkflowDataFrames] or [WorkflowDataFrame]. *)
Definition select_args (args : list value) (kwargs : dict value) : list value :=
  filter is_graph_bound args ++ filter is_graph_bound (dict_values kwargs).

(** The assertion guarding each assignment [wf = _.workflow]. *)
Definition same_workflow (wf : option FugueWorkflow) (w : FugueWorkflow)
  : result error (option FugueWorkflow) :=
  assert_or_throw
    match wf with None => true | Some w0 => Nat.eqb w w0 end
    (ThrowExn (mkExn ValueError
       [Lit "different parenet workflows found on input dataframes"])) ;;;
  Ok (Some w).

(** [for k, v in a.items()]. *)
Fixpoint infer_items (items : list (string * value))
  (wf : option FugueWorkflow) : result error (option FugueWorkflow) :=
  match items with
  | [] => Ok wf
  | (k, v) :: items' =>
      match v with
      | VWorkflowDataFrame w =>
          wf' <- same_workflow wf w ;; infer_items items' wf'
      | _ => Raise (mkExn ValueError
                      [FmtName k; Lit ":"; FmtValue v;
                       Lit " is not a WorkflowDataFrame"])
      end
  end.

(** [for a in select_args()]. *)
Fixpoint infer_loop (selected : list value) (wf : option FugueWorkflow)
  : result error (option FugueWorkflow) :=
  match selected with
  | [] => Ok wf
  | a :: selected' =>
      match a with
      | VWorkflowDataFrame w =>
          wf' <- same_workflow wf w ;; infer_loop selected' wf'
      | VWorkflowDataFrames items =>
          wf' <- infer_items items wf ;; infer_loop selected' wf'
      | _ => infer_loop selected' wf
      end
  end.

(** [_infer_workflow]. *)
Definition _infer_workflow (args : list value) (kwargs : dict value)
  : result error (option FugueWorkflow) :=
  infer_loop (select_args args kwargs) None.

(** [__call__]. *)
Definition __call__ (self : _ModuleFunctionWrapper)
  (args : list value) (kwargs : dict value) : result error value :=
  need <- _need_add_workflow self args kwargs ;;
  if need then
    wf <- _infer_workflow args kwargs ;;
    match wf with
    | None => Raise (mkExn ValueError [Lit "can't infer workflow"])
    | Some w => super_call self (VWorkflow w :: args) kwargs
    end
  else super_call self args kwargs.

(** The default signature patterns of [_ModuleFunctionWrapper.__init__],
    over the one-letter codes of the annotations.  [params_re] is an
    alternative of two groups, followed by any number of [x] and an
    optional [z]: the first group is an optional [w], then either [u] or
    one or more [v]; the second group is [w], then either an optional
    [u] or any number of [v].  [return_re] is one character among [u],
    [v] and [n].  Both are anchored at the start and at the end. *)
Definition params_re : Re.regex :=
  let w := Re.Chr "w"%char in
  let u := Re.Chr "u"%char in
  let v := Re.Chr "v"%char in
  Re.Seq
    (Re.Seq
       (Re.Alt (Re.Seq (Re.Opt w) (Re.Alt u (Re.Plus v)))
               (Re.Seq w (Re.Alt (Re.Opt u) (Re.Star v))))
       (Re.Star (Re.Chr "x"%char)))
    (Re.Opt (Re.Chr "z"%char)).

Definition return_re : Re.regex :=
  Re.Cls ["u"%char; "v"%char; "n"%char].

(** The owning contexts of the graph-bound handles among the objects
    [l], in scan order: a single handle contributes its own, a collection
    those of its members. *)
Definition item_workflows (items : list (string * value)) : list FugueWorkflow :=
  flat_map (fun kv => match snd kv with
                      | VWorkflowDataFrame w => [w]
                      | _ => []
                      end) items.

Definition workflows_of (l : list value) : list FugueWorkflow :=
  flat_map (fun a => match a with
                     | VWorkflowDataFrame w => [w]
                     | VWorkflowDataFrames items => item_workflows items
                     | _ => []
                     end) l.

Definition handle_workflows (args : list value) (kwargs : dict value)
  : list FugueWorkflow :=
  workflows_of (args ++ dict_values kwargs).

(** Every member of every collection among [l] is a
    [WorkflowDataFrame]. *)
Definition well_formed (l : list value) : bool :=
  forallb (fun a => match a with
                    | VWorkflowDataFrames items =>
                        forallb (fun kv => match snd kv with
                                           | VWorkflowDataFrame _ => true
                                           | _ => false
                                           end) items
                    | _ => true
                    end) l.

Definition members_are_handles (args : list value) (kwargs : dict value) : bool :=
  well_formed (args ++ dict_values kwargs).

(** The call supplies the context itself as first positional argument. *)
Definition first_positional_is_workflow (args : list value) : bool :=
  match args with
  | VWorkflow _ :: _ => true
  | _ => false
  end.

(** The state of the scan after a successful pass over handles [ws]
    started from [wf]: every handle seen, and the context held before,
    is the context held now. *)
Definition scanned (wf : option FugueWorkflow) (ws : list FugueWorkflow)
  (wf' : option FugueWorkflow) : Prop :=
  (forall w, In w ws -> wf' = Some w)
  /\ (forall w0, wf = Some w0 -> wf' = Some w0)
  /\ (ws = [] -> wf' = wf).

End workflow_module.

(** ** A small implementation of the handle, to run the wrapper on *)

Module Sample.
Import function_wrapper.

(** An in-memory frame: schema, boundedness and rows. *)
Record frame := mkFrame {
  frame_schema : Schema;
  frame_bounded : bool;
  frame_rows : list row
}.

Definition frame_error := function_wrapper.error frame.

Definition frame_of (s : option Schema) (rows : list row)
  : result frame_error frame :=
  Ok (mkFrame (Schema_of s) true rows).

Definition frame_concat (fs : list frame) : frame :=
  mkFrame (match fs with f :: _ => frame_schema f | [] => [] end) true
          (flat_map frame_rows fs).

#[export] Instance frame_api : DataFrameAPI frame := {|
  schema := frame_schema;
  is_bounded := frame_bounded;
  df_count := fun f => Z.of_nat (List.length (frame_rows f));
  as_array := frame_rows;
  as_array_iterable := frame_rows;
  as_dict_iterable := fun f =>
    map (fun r => combine (Schema_names (frame_schema f)) r) (frame_rows f);
  as_pandas := fun f => mk_pd (Schema_names (frame_schema f)) (frame_rows f);
  as_arrow := fun f => mk_pa (Schema_names (frame_schema f)) (frame_rows f);
  to_local_df := fun f => f;
  native := fun _ => None;
  ArrayDataFrame := fun rows s => frame_of s rows;
  IterableDataFrame := fun rows s => frame_of s rows;
  PandasDataFrame := fun f s => frame_of s (pd_rows f);
  ArrowDataFrame := fun t s => frame_of s (pa_rows t);
  LocalDataFrameIterableDataFrame := fun fs => Ok (frame_concat fs);
  select_alter_columns := fun f s => Ok (mkFrame s (frame_bounded f) (frame_rows f));
  py_other := fun op v => Raise (mkExn TypeError [FmtAttr v op])
|}.

Definition value := function_wrapper.value frame.

(** A wrapped function that returns the number of keyword arguments it
    received. *)
Definition count_kwargs (rargs : dict value) : result frame_error value :=
  Ok (VInt (Z.of_nat (List.length rargs))).

Definition named (code : string) : AnnotatedParam :=
  mkAnnotatedParam (OtherParam code) true.

Definition tabular (h : df_handler) : AnnotatedParam :=
  mkAnnotatedParam (TabularParam h) true.

(** [def f(a: int, b: int) -> int]. *)
Definition wrapper_ab : DataFrameFunctionWrapper :=
  mkWrapper [("a", named "x"); ("b", named "x")] (named "x") count_kwargs.


Definition one_row : frame :=
  mkFrame [("x", "long")] true [[CInt 1]].

(** [def f(a: int, df: pd.DataFrame) -> int]. *)
Definition wrapper_pandas : DataFrameFunctionWrapper :=
  mkWrapper [("a", named "x"); ("df", tabular _PandasParam)] (named "x")
            count_kwargs.


(** [def f(df: pa.Table) -> pa.Table], the identity. *)
Definition wrapper_arrow : DataFrameFunctionWrapper :=
  mkWrapper [("df", tabular _PyArrowTableParam)] (tabular _PyArrowTableParam)
            (fun rargs : dict value =>
               match dict_get "df" rargs with
               | Some t => Ok t
               | None => Ok VNone
               end).

Definition no_rows : frame :=
  mkFrame [("x", "long")] true [].


(** [def f(a: int, **kwargs) -> int]. *)
Definition wrapper_kw : DataFrameFunctionWrapper :=
  mkWrapper [("a", named "x"); ("kwargs", mkAnnotatedParam KeywordParam true)]
            (named "x") count_kwargs.


(** [def f(a: int) -> DataFrame], returning a one-row frame. *)
Definition wrapper_df : DataFrameFunctionWrapper :=
  mkWrapper [("a", named "x")] (tabular DataFrameParam)
            (fun _ : dict value => Ok (VDataFrame one_row)).

End Sample.

Module WorkflowSample.
Import workflow_module.

(** [def m(wf: FugueWorkflow, df: WorkflowDataFrame) -> WorkflowDataFrame],
    the inherited call returning its second positional argument. *)
Definition module_wf_df : _ModuleFunctionWrapper :=
  mkModuleWrapper
    [("wf", _FugueWorkflowParam); ("df", _WorkflowDataFrameParam)]
    _WorkflowDataFrameParam
    (fun args _ => match args with
                   | _ :: a :: _ => Ok a
                   | _ => Raise (mkExn TypeError [Lit "missing argument"])
                   end).

(** [def m(dfs: WorkflowDataFrames) -> None]. *)
Definition module_dfs : _ModuleFunctionWrapper :=
  mkModuleWrapper [("dfs", _WorkflowDataFramesParam)] (OtherParam "n")
                  (fun _ _ => Ok (VOther "None")).

End WorkflowSample.

(** * Properties *)

(** ** Insertion-ordered dicts *)

Module DictFacts.
Section Facts.
Variable V : Type.
Implicit Types (d : dict V) (k : string) (v : V).

Lemma dict_get_set_same d k v : dict_get k (dict_set k v d) = Some v.
Proof.
  induction d as [|[k' v'] d IH]; simpl.
  - now rewrite String.eqb_refl.
  - destruct (String.eqb k k') eqn:E; simpl; rewrite E; auto.
Qed.

Lemma dict_get_set_other d k k' v :
  k <> k' -> dict_get k (dict_set k' v d) = dict_get k d.
Proof.
  intros N. induction d as [|[k0 v0] d IH]; simpl.
  - apply String.eqb_neq in N. now rewrite N.
  - destruct (String.eqb k' k0) eqn:E; simpl.
    + apply String.eqb_eq in E; subst k0.
      apply String.eqb_neq in N. now rewrite N.
    + destruct (String.eqb k k0); auto.
Qed.



Lemma dict_get_None_keys d k : dict_get k d = None <-> ~ In k (dict_keys d).
Proof.
  induction d as [|[k' v'] d IH]; simpl.
  - tauto.
  - destruct (String.eqb k k') eqn:E.
    + apply String.eqb_eq in E; subst. split; [discriminate | tauto].
    + apply String.eqb_neq in E. rewrite IH. split.
      * intros H [H1 | H1]; [congruence | tauto].
      * tauto.
Qed.

Lemma dict_get_In d k v : dict_get k d = Some v -> In (k, v) d.
Proof.
  induction d as [|[k' v'] d IH]; simpl; [discriminate|].
  destruct (String.eqb k k') eqn:E.
  - apply String.eqb_eq in E; subst. intros [= ->]. now left.
  - auto.
Qed.

Lemma dict_keys_del d k :
  forall k', In k' (dict_keys (dict_del k d)) -> In k' (dict_keys d).
Proof.
  induction d as [|[k0 v0] d IH]; simpl; auto.
  destruct (String.eqb k k0); simpl; intuition.
Qed.

Lemma dict_del_NoDup d k : NoDup (dict_keys d) -> NoDup (dict_keys (dict_del k d)).
Proof.
  induction d as [|[k0 v0] d IH]; simpl; auto.
  intros H. inversion H; subst.
  destruct (String.eqb k k0); simpl; auto.
  constructor; auto. intros HI. apply H2. eapply dict_keys_del; eauto.
Qed.

Lemma dict_get_del_same d k :
  NoDup (dict_keys d) -> dict_get k (dict_del k d) = None.
Proof.
  induction d as [|[k0 v0] d IH]; simpl; auto.
  intros H. inversion H; subst.
  destruct (String.eqb k k0) eqn:E; simpl.
  - apply String.eqb_eq in E; subst. now apply dict_get_None_keys.
  - rewrite E. auto.
Qed.

Lemma dict_get_del_other d k k' :
  k <> k' -> dict_get k (dict_del k' d) = dict_get k d.
Proof.
  intros N. induction d as [|[k0 v0] d IH]; simpl; auto.
  destruct (String.eqb k' k0) eqn:E; simpl.
  - apply String.eqb_eq in E; subst. apply String.eqb_neq in N. now rewrite N.
  - destruct (String.eqb k k0); auto.
Qed.

Lemma dict_set_keys d k v :
  forall k', In k' (dict_keys (dict_set k v d)) <-> k' = k \/ In k' (dict_keys d).
Proof.
  induction d as [|[k0 v0] d IH]; simpl; intros k'.
  - intuition.
  - destruct (String.eqb k k0) eqn:E; simpl.
    + apply String.eqb_eq in E; subst. intuition.
    + rewrite IH. intuition.
Qed.

Lemma dict_set_NoDup d k v : NoDup (dict_keys d) -> NoDup (dict_keys (dict_set k v d)).
Proof.
  induction d as [|[k0 v0] d IH]; simpl; intros H.
  - constructor; [simpl; tauto | constructor].
  - inversion H; subst.
    destruct (String.eqb k k0) eqn:E; simpl.
    + constructor; auto.
    + constructor; auto. rewrite dict_set_keys. intros [-> | HI]; auto.
      now rewrite String.eqb_refl in E.
Qed.

Lemma dict_update_NoDup d other :
  NoDup (dict_keys d) -> NoDup (dict_keys (dict_update d other)).
Proof.
  unfold dict_update. revert d.
  induction other as [|[k v] other IH]; simpl; intros d H; auto.
  apply IH. now apply dict_set_NoDup.
Qed.

Lemma dict_get_Some_iff d k v :
  NoDup (dict_keys d) -> dict_get k d = Some v <-> In (k, v) d.
Proof.
  intros ND. split; [apply dict_get_In|].
  induction d as [|[k' v'] d IH]; simpl; [tauto|].
  inversion ND as [|? ? NI ND']; subst.
  intros [[= -> ->] | HI].
  - now rewrite String.eqb_refl.
  - destruct (String.eqb k k') eqn:E; auto.
    apply String.eqb_eq in E; subst k'.
    exfalso. apply NI. apply (in_map fst) in HI. exact HI.
Qed.



End Facts.
End DictFacts.

(** ** The handlers and the dispatcher *)

Module function_wrapper_facts.
Import function_wrapper DictFacts.

Section Facts.
Context {DataFrame : Type} {api : DataFrameAPI DataFrame}.

Local Abbreviation value := (function_wrapper.value DataFrame).
Local Abbreviation error := (function_wrapper.error DataFrame).
Local Abbreviation wrapper := (@DataFrameFunctionWrapper DataFrame).

Implicit Types (self : wrapper) (h : df_handler) (v : AnnotatedParam)
  (k : string) (x ctx rt : value) (p args_kw : dict value).

(** *** Format hints *)

Lemma first_format_hint_find (vs : list AnnotatedParam) :
  first_format_hint vs =
  match find has_hint vs with
  | Some v => handler_hint v
  | None => None
  end.
Proof.
  induction vs as [|v vs IH]; simpl; auto.
  rewrite IH. unfold has_hint, handler_hint.
  destruct (kind v) as [| |h|c] eqn:K; auto.
  destruct (format_hint h) eqn:F; auto.
  now rewrite K, F.
Qed.

Lemma find_skip {A} (f : A -> bool) (l1 l2 : list A) :
  find f l1 = None -> find f (l1 ++ l2) = find f l2.
Proof.
  induction l1 as [|a l1 IH]; simpl; auto.
  destruct (f a); [discriminate | auto].
Qed.

Lemma find_has_hint_Some (vs : list AnnotatedParam) v :
  find has_hint vs = Some v -> exists hint, handler_hint v = Some hint.
Proof.
  intros H. apply find_some in H. destruct H as [_ H].
  unfold has_hint in H. destruct (handler_hint v); [eauto | discriminate].
Qed.

Lemma no_hint_unless_tabular (vs : list AnnotatedParam) :
  Forall (fun v => is_DataFrameParamBase v = false) vs ->
  find has_hint vs = None.
Proof.
  induction 1 as [|v vs Hv _ IH]; simpl; auto.
  unfold has_hint, handler_hint at 1.
  unfold is_DataFrameParamBase in Hv.
  destruct (kind v); auto; discriminate.
Qed.

(** C8: [get_format_hint] returns the hint of the first parameter handler,
    in declared order, whose hint is not [None]; when no parameter
    handler declares one it returns the hint of the return handler, which
    is [None] when that one declares none either.  For a signature whose
    only tabular parameter is the pandas handler the answer is
    ["pandas"]. *)
Theorem get_format_hint_first_declared self :
  get_format_hint self =
    match find has_hint (dict_values (_params self)) with
    | Some v => handler_hint v
    | None => handler_hint (_rt self)
    end
  /\ (find has_hint (dict_values (_params self)) = None ->
      handler_hint (_rt self) = None -> get_format_hint self = None)
  /\ (forall before name v after,
        _params self = (before ++ (name, v) :: after)%list ->
        kind v = TabularParam _PandasParam ->
        Forall (fun kv => is_DataFrameParamBase (snd kv) = false)
               (before ++ after)%list ->
        get_format_hint self = Some "pandas").
Proof.
  assert (E : get_format_hint self =
              match find has_hint (dict_values (_params self)) with
              | Some v => handler_hint v
              | None => handler_hint (_rt self)
              end).
  { unfold get_format_hint. rewrite first_format_hint_find.
    destruct (find has_hint _) as [v|] eqn:F.
    - destruct (find_has_hint_Some _ F) as [hint ->]. reflexivity.
    - reflexivity. }
  split; [exact E|]. split.
  - intros F R. now rewrite E, F.
  - intros before name v after P K NT.
    rewrite E, P. unfold dict_values. rewrite map_app. simpl.
    apply Forall_app in NT. destruct NT as [NB NA].
    assert (FB : find has_hint (map snd before) = None).
    { apply no_hint_unless_tabular. now apply Forall_map. }
    rewrite (find_skip _ _ _ FB). simpl.
    assert (HV : has_hint v = true)
      by (unfold has_hint, handler_hint; now rewrite K).
    rewrite HV. unfold handler_hint. now rewrite K.
Qed.

(** *** Construction of tabular handlers *)


(** *** Counting rows *)

Lemma sum_shape0_rows {T} (shape : T -> Z * Z) (rows_of : T -> list row)
  (l : list T) :
  (forall t, fst (shape t) = Z.of_nat (List.length (rows_of t))) ->
  sum_shape0 shape l = Z.of_nat (List.length (flat_map rows_of l)).
Proof.
  intros Hs. unfold sum_shape0.
  enough (G : forall acc,
             fold_left (fun a t => (a + fst (shape t))%Z) l acc =
             (acc + Z.of_nat (List.length (flat_map rows_of l)))%Z)
    by (rewrite G; lia).
  induction l as [|t l IH]; intros acc; simpl.
  - lia.
  - rewrite IH, Hs, length_app. lia.
Qed.

(** Every handler but the one for a single Arrow table counts the rows of
    a value of its shape; for the abstract handle this rests on [count()]
    of a bounded handle agreeing with its row sequence. *)
Lemma count_is_number_of_rows h df n :
  (forall d, is_bounded d = true ->
             df_count d = Z.of_nat (List.length (as_array_iterable d))) ->
  h <> _PyArrowTableParam ->
  of_shape h df = true ->
  num_rows df = Some n ->
  count h df = Ok (VInt (Z.of_nat n)).
Proof.
  intros Hc Hh Hs Hn.
  destruct h; try congruence; destruct df; try discriminate Hs;
    simpl in Hn; injection Hn as <-; simpl; try reflexivity;
    try (destruct (is_bounded d) eqn:B; [rewrite (Hc d B)|]; reflexivity).
  - now rewrite (sum_shape0_rows pd_shape pd_rows).
  - now rewrite (sum_shape0_rows pa_shape pa_rows).
Qed.

(** C6: on a realized Arrow table the handler's [count] calls a method
    that [pyarrow.Table] does not have, so it raises [AttributeError]
    instead of returning the number of rows, also for a table with no
    rows; the handler for a sequence of Arrow tables, given the same
    table, returns its number of rows. *)
Theorem PyArrowTable_count_raises (t : pa_Table) :
  count _PyArrowTableParam (VArrow t) =
    Raise (mkExn AttributeError [FmtAttr (VArrow t) "count"])
  /\ count _PyArrowTableParam (VArrow (mk_pa ["x"] [])) <> Ok (VInt 0)
  /\ count _IterableArrowParam (VIterableArrow [t]) =
       Ok (VInt (Z.of_nat (List.length (pa_rows t)))).
Proof.
  split; [|split].
  - reflexivity.
  - discriminate.
  - simpl. unfold sum_shape0. simpl. reflexivity.
Qed.

(** *** Output conversion of the abstract handle *)

Lemma Schema_eqb_eq (a b : Schema) : Schema_eqb a b = true <-> a = b.
Proof.
  revert b. induction a as [|[n1 t1] a IH]; intros [|[n2 t2] b]; simpl;
    try (split; [discriminate | congruence]); try tauto.
  rewrite !andb_true_iff, !String.eqb_eq, IH. split.
  - intros [[-> ->] ->]. reflexivity.
  - intros [= -> -> ->]. auto.
Qed.

(** C7: for the abstract handle as return shape, a declared schema that
    differs from the schema of the produced handle makes [to_output_df]
    fail with an error whose message holds both schemas; with no declared
    schema, or with an equal one, the produced handle is returned as it
    is. *)
Theorem to_output_df_schema_mismatch (d : DataFrame) (declared : Schema) ctx :
  (schema d <> declared ->
   exists e,
     to_output_df DataFrameParam (VDataFrame d) (Some declared) ctx = Raise e
     /\ In (FmtSchema (Some (schema d))) (exn_msg e)
     /\ In (FmtSchema (Some declared)) (exn_msg e))
  /\ (schema d = declared ->
      to_output_df DataFrameParam (VDataFrame d) (Some declared) ctx =
        Ok (VDataFrame d))
  /\ to_output_df DataFrameParam (VDataFrame d) None ctx = Ok (VDataFrame d).
Proof.
  simpl. split; [|split].
  - intros N. destruct (Schema_eqb (schema d) declared) eqn:E.
    + apply Schema_eqb_eq in E. contradiction.
    + simpl. eexists. split; [reflexivity|]. simpl. tauto.
  - intros E. apply Schema_eqb_eq in E. now rewrite E.
  - reflexivity.
Qed.

(** *** The two halves of [run] *)

Lemma run_binding_failed self args kwargs iu os out ctx e :
  bind_arguments self args kwargs iu ctx = Raise e ->
  run self args kwargs iu os out ctx = (Raise e, []).
Proof. unfold run. now intros ->. Qed.

Lemma run_bound self args kwargs iu os out ctx bound :
  bind_arguments self args kwargs iu ctx = Ok bound ->
  run self args kwargs iu os out ctx =
    (Py.bind (_func self bound)
       (fun rt => handle_return self rt os out ctx), [bound]).
Proof. unfold run. now intros ->. Qed.


(** *** Binding a signature with two required named parameters *)

Ltac string_eqb :=
  repeat match goal with
    | |- context [String.eqb ?a ?a] => rewrite (String.eqb_refl a)
    | H : ?a <> ?b |- context [String.eqb ?a ?b] =>
        rewrite (proj2 (String.eqb_neq a b) H)
    | H : ?a <> ?b |- context [String.eqb ?b ?a] =>
        rewrite (proj2 (String.eqb_neq b a) (not_eq_sym H))
    end.

Ltac dict_simpl :=
  repeat (progress (simpl; unfold dict_update;
                    cbn [dict_get dict_set dict_del fold_left fst snd];
                    string_eqb)).

Lemma bind_param_named ctx k v x (b : binding) :
  is_named v = true ->
  dict_get k (p_ b) = Some x ->
  acceptable v x = true ->
  bind_param ctx k v b =
    Ok (mkBinding (dict_del k (p_ b)) (has_kw b)
                  (dict_set k (passed_value ctx v x) (rargs b))).
Proof.
  unfold bind_param, is_named, acceptable, passed_value.
  intros N G A. destruct (kind v); try discriminate; rewrite G; simpl; auto.
  destruct x; try discriminate. reflexivity.
Qed.

Lemma bind_param_missing ctx k v (b : binding) :
  is_named v = true ->
  dict_get k (p_ b) = None ->
  required v = true ->
  bind_param ctx k v b =
    Raise (mkExn ValueError [FmtName k; Lit " is required by not given"]).
Proof.
  unfold bind_param, is_named.
  intros N G R. destruct (kind v); try discriminate; now rewrite G, R.
Qed.

(** C3: with exactly two required named parameters [a] and [b] and no
    keyword capture, a call that binds only [a] raises the error that
    names [b] as required, and the wrapped function is not called; a call
    with [a], [b] and an extra [c] raises the error that names [c] when
    [ignore_unknown] is false; with [ignore_unknown] true the function is
    called with [a] and [b] only. *)
Theorem run_two_required_parameters self a b c va vb xa xb xc os out ctx :
  _params self = [(a, va); (b, vb)] ->
  a <> b -> c <> a -> c <> b ->
  is_named va = true -> is_named vb = true ->
  required va = true -> required vb = true ->
  acceptable va xa = true -> acceptable vb xb = true ->
  let required_b :=
    mkExn ValueError [FmtName b; Lit " is required by not given"] in
  let unknown_c :=
    mkExn ValueError [FmtDict [(c, xc)]; Lit " are not acceptable parameters"] in
  let bound :=
    [(a, passed_value ctx va xa); (b, passed_value ctx vb xb)] in
  (forall iu, run self [] [(a, xa)] iu os out ctx = (Raise required_b, []))
  /\ (forall iu, run self [xa] [] iu os out ctx = (Raise required_b, []))
  /\ run self [] [(a, xa); (b, xb); (c, xc)] false os out ctx
     = (Raise unknown_c, [])
  /\ run self [] [(a, xa); (b, xb); (c, xc)] true os out ctx
     = (Py.bind (_func self bound)
          (fun rt => handle_return self rt os out ctx), [bound])
  /\ dict_get c bound = None.
Proof.
  intros P Nab Nca Ncb Na Nb Ra Rb Aa Ab required_b unknown_c bound.
  assert (Nba : b <> a) by congruence.
  split; [|split; [|split; [|split]]].
  - intros iu. apply run_binding_failed.
    unfold bind_arguments. rewrite P. dict_simpl.
    rewrite (bind_param_named ctx a va (x := xa)); dict_simpl; auto.
    rewrite (bind_param_missing ctx b vb); dict_simpl; auto.
  - intros iu. apply run_binding_failed.
    unfold bind_arguments. rewrite P. dict_simpl.
    rewrite (bind_param_named ctx a va (x := xa)); dict_simpl; auto.
    rewrite (bind_param_missing ctx b vb); dict_simpl; auto.
  - apply run_binding_failed.
    unfold bind_arguments. rewrite P. dict_simpl.
    rewrite (bind_param_named ctx a va (x := xa)); dict_simpl; auto.
    rewrite (bind_param_named ctx b vb (x := xb)); dict_simpl; auto.
  - apply run_bound.
    unfold bind_arguments. rewrite P. dict_simpl.
    rewrite (bind_param_named ctx a va (x := xa)); dict_simpl; auto.
    rewrite (bind_param_named ctx b vb (x := xb)); dict_simpl; auto.
  - subst bound. dict_simpl. reflexivity.
Qed.

(** *** The binding loop *)

Lemma merge_positional_NoDup (ps : list (string * AnnotatedParam)) args :
  forall i p p',
    NoDup (dict_keys p) ->
    merge_positional ps i args p = Ok p' ->
    NoDup (dict_keys p').
Proof.
  induction args as [|a args IH]; simpl; intros i p p' N M.
  - now injection M as <-.
  - destruct (get_key_by_index ps i) as [k0|] eqn:K; simpl in M; [|discriminate].
    eapply IH; [|exact M]. now apply dict_set_NoDup.
Qed.



Lemma bind_param_step ctx k v (b b' : binding) :
  NoDup (dict_keys (p_ b)) ->
  bind_param ctx k v b = Ok b' ->
  NoDup (dict_keys (p_ b'))
  /\ (forall k', k' <> k ->
        dict_get k' (p_ b') = dict_get k' (p_ b)
        /\ dict_get k' (rargs b') = dict_get k' (rargs b))
  /\ (is_named v = true -> dict_get k (p_ b') = None)
  /\ (is_named v = true -> forall x,
        dict_get k (p_ b) = Some x ->
        acceptable v x = true
        /\ dict_get k (rargs b') = Some (passed_value ctx v x))
  /\ has_kw b' = has_kw b || is_KeywordParam v
  /\ (is_named v = false -> p_ b' = p_ b).
Proof.
  intros ND. unfold bind_param, is_named, acceptable, passed_value, is_KeywordParam.
  destruct (kind v) as [| |h|code] eqn:K.
  - intros [= <-]. rewrite orb_false_r.
    repeat split; auto; discriminate.
  - intros [= <-]. simpl. rewrite orb_true_r.
    repeat split; auto; discriminate.
  - destruct (dict_get k (p_ b)) as [x|] eqn:G.
    + destruct x; simpl; try discriminate. intros [= <-]. simpl.
      rewrite orb_false_r.
      split; [now apply dict_del_NoDup|].
      split; [intros k' N; split;
              [now apply dict_get_del_other | now apply dict_get_set_other]|].
      split; [intros _; now apply dict_get_del_same|].
      split; [|split; [reflexivity | discriminate]].
      intros _ x [= <-]. split; [reflexivity | apply dict_get_set_same].
    + destruct (required v); [discriminate|]. intros [= <-].
      rewrite orb_false_r. repeat split; auto; discriminate.
  - destruct (dict_get k (p_ b)) as [x|] eqn:G.
    + simpl. intros [= <-]. simpl. rewrite orb_false_r.
      split; [now apply dict_del_NoDup|].
      split; [intros k' N; split;
              [now apply dict_get_del_other | now apply dict_get_set_other]|].
      split; [intros _; now apply dict_get_del_same|].
      split; [|split; [reflexivity | discriminate]].
      intros _ x' [= <-]. split; [reflexivity | apply dict_get_set_same].
    + destruct (required v); [discriminate|]. intros [= <-].
      rewrite orb_false_r. repeat split; auto; discriminate.
Qed.

Lemma bind_param_offending ctx k v (b : binding) :
  offending (p_ b) (k, v) = true ->
  bind_param ctx k v b = Raise (binding_error (p_ b) (k, v)).
Proof.
  unfold offending, not_a_DataFrame, missing_required, binding_error,
    bind_param, is_named, dict_in. simpl.
  destruct (kind v) as [| |h|code]; simpl; try discriminate;
    destruct (dict_get k (p_ b)) as [x|]; simpl;
    try destruct x; simpl; try discriminate;
    try (rewrite andb_false_r; discriminate);
    destruct (required v); simpl; try discriminate; reflexivity.
Qed.

Lemma bind_param_not_offending ctx k v (b : binding) :
  offending (p_ b) (k, v) = false ->
  exists b', bind_param ctx k v b = Ok b'.
Proof.
  unfold offending, not_a_DataFrame, missing_required,
    bind_param, is_named, dict_in. simpl.
  destruct (kind v) as [| |h|code]; simpl; eauto;
    destruct (dict_get k (p_ b)) as [x|]; simpl;
    try destruct x; simpl; try discriminate; eauto;
    destruct (required v); simpl; try discriminate; eauto.
Qed.

Lemma offending_same_lookup p p' (kv : string * AnnotatedParam) :
  dict_get (fst kv) p' = dict_get (fst kv) p ->
  offending p' kv = offending p kv /\ binding_error p' kv = binding_error p kv.
Proof.
  unfold offending, not_a_DataFrame, missing_required, binding_error, dict_in.
  now intros ->.
Qed.

Lemma find_same {A} (f g : A -> bool) (l : list A) :
  (forall a, In a l -> f a = g a) -> find f l = find g l.
Proof.
  induction l as [|a l IH]; simpl; intros E; auto.
  rewrite (E a) by auto. destruct (g a); auto.
Qed.

Lemma In_dict_keys {A} (d : dict A) k a : In (k, a) d -> In k (dict_keys d).
Proof. intros H. apply (in_map fst) in H. exact H. Qed.

(** The loop stops at the first parameter, in declared order, whose
    binding fails on the merged pool, with that parameter's error. *)
Lemma bind_params_first_offender ctx (ps : list (string * AnnotatedParam)) :
  NoDup (dict_keys ps) ->
  forall b : binding,
    NoDup (dict_keys (p_ b)) ->
    match find (offending (p_ b)) ps with
    | Some kv => bind_params ctx ps b = Raise (binding_error (p_ b) kv)
    | None => exists b', bind_params ctx ps b = Ok b'
    end.
Proof.
  induction ps as [|[k v] ps IH]; simpl; intros ND b NDp.
  - eauto.
  - inversion ND as [|? ? NI ND']; subst.
    destruct (offending (p_ b) (k, v)) eqn:O.
    + now rewrite (@bind_param_offending ctx k v b O).
    + destruct (@bind_param_not_offending ctx k v b O) as [b1 B1].
      rewrite B1. simpl.
      destruct (@bind_param_step ctx k v b b1 NDp B1) as (ND1 & Other & _).
      assert (Same : forall kv, In kv ps ->
                dict_get (fst kv) (p_ b1) = dict_get (fst kv) (p_ b)).
      { intros [k' v'] HI. simpl. apply Other. intros E. apply NI.
        rewrite <- E. eapply In_dict_keys; eauto. }
      specialize (IH ND' b1 ND1).
      rewrite (find_same (offending (p_ b1)) (offending (p_ b))) in IH
        by (intros kv HI; now apply offending_same_lookup, Same).
      destruct (find (offending (p_ b)) ps) as [kv|] eqn:F; auto.
      rewrite IH. f_equal.
      apply offending_same_lookup, Same.
      now apply find_some in F.
Qed.


(** *** [run] as a whole *)

Lemma merged_pool_NoDup self args kwargs p :
  merged_pool self args kwargs = Ok p -> NoDup (dict_keys p).
Proof.
  unfold merged_pool.
  destruct (merge_positional (_params self) 0 args []) as [p0|] eqn:M;
    simpl; [|discriminate].
  intros [= <-]. apply dict_update_NoDup.
  eapply merge_positional_NoDup; [|exact M]. constructor.
Qed.

Lemma bind_arguments_merged self args kwargs iu ctx :
  bind_arguments self args kwargs iu ctx =
  Py.bind (merged_pool self args kwargs) (fun p =>
  Py.bind (bind_params ctx (_params self) (mkBinding p false [])) (fun b =>
    if has_kw b then Ok (dict_update (rargs b) (p_ b))
    else if negb iu && (0 <? List.length (p_ b))%nat
         then Raise (mkExn ValueError
                       [FmtDict (p_ b); Lit " are not acceptable parameters"])
         else Ok (rargs b))).
Proof.
  unfold bind_arguments, merged_pool.
  destruct (merge_positional (_params self) 0 args []); reflexivity.
Qed.










End Facts.
End function_wrapper_facts.

(** ** The wrapper at work on sample signatures *)

Module function_wrapper_examples.
Import function_wrapper function_wrapper_facts Sample.



Lemma get_format_hint_witness :
  get_format_hint wrapper_pandas = Some "pandas".
Proof.
  refine (proj2 (proj2 (@get_format_hint_first_declared frame wrapper_pandas))
            [("a", named "x")] "df" (tabular _PandasParam) [] _ _ _).
  - reflexivity.
  - reflexivity.
  - repeat constructor.
Defined.


Lemma to_output_df_schema_mismatch_witness :
  exists e,
    to_output_df DataFrameParam (VDataFrame one_row) (Some [("y", "str")]) VNone
      = Raise e
    /\ In (FmtSchema (Some (schema one_row))) (exn_msg e)
    /\ In (FmtSchema (Some [("y", "str")])) (exn_msg e).
Proof.
  refine (proj1 (@to_output_df_schema_mismatch frame frame_api one_row
                   [("y", "str")] VNone) _).
  discriminate.
Defined.

Lemma run_two_required_parameters_witness :
  run wrapper_ab [] [("a", VInt 1)] false None true VNone
  = (Raise (mkExn ValueError [FmtName "b"; Lit " is required by not given"]), []).
Proof.
  refine (proj1 (@run_two_required_parameters frame frame_api wrapper_ab
            "a" "b" "c" (named "x") (named "x") (VInt 1) (VInt 2) (VInt 3)
            None true VNone _ _ _ _ _ _ _ _ _ _) false);
    try reflexivity; discriminate.
Defined.






(** A function annotated to return an Arrow table, run with [output]
    false on an empty table: the count raises. *)
Lemma run_without_output_on_arrow_table :
  fst (run wrapper_arrow [] [("df", VDataFrame no_rows)] false None false VNone)
  = Raise (mkExn AttributeError
             [FmtAttr (VArrow (mk_pa ["x"] [])) "count"]).
Proof. reflexivity. Qed.

End function_wrapper_examples.

(** ** The workflow-aware wrapper *)

Module workflow_module_facts.
Import workflow_module.

Local Open Scope py_scope.

Implicit Types (self : _ModuleFunctionWrapper) (args : list value)
  (kwargs : dict value) (wf : option FugueWorkflow) (w : FugueWorkflow).

Lemma same_workflow_ok wf w wf' :
  same_workflow wf w = Ok wf' ->
  wf' = Some w /\ (forall w0, wf = Some w0 -> w0 = w).
Proof.
  unfold same_workflow. destruct wf as [w0|]; simpl.
  - destruct (Nat.eqb w w0) eqn:E; simpl; [|discriminate].
    apply Nat.eqb_eq in E. subst w0.
    intros [= <-]. split; [reflexivity|]. now intros w0 [= ->].
  - intros [= <-]. split; [reflexivity | discriminate].
Qed.

Lemma same_workflow_raise wf w e :
  same_workflow wf w = Raise e -> exn_cls e = ValueError.
Proof.
  unfold same_workflow. destruct wf as [w0|]; simpl; [|discriminate].
  destruct (Nat.eqb w w0); simpl; [discriminate|]. now intros [= <-].
Qed.

Lemma same_workflow_agree wf w :
  (forall w0, wf = Some w0 -> w0 = w) -> same_workflow wf w = Ok (Some w).
Proof.
  unfold same_workflow. destruct wf as [w0|]; simpl; auto.
  intros H. rewrite (H w0 eq_refl), Nat.eqb_refl. reflexivity.
Qed.

Lemma scanned_app wf ws1 wf1 ws2 wf2 :
  scanned wf ws1 wf1 -> scanned wf1 ws2 wf2 -> scanned wf (ws1 ++ ws2)%list wf2.
Proof.
  intros (A1 & B1 & C1) (A2 & B2 & C2). split; [|split].
  - intros w HI. apply in_app_or in HI. destruct HI as [HI | HI]; auto.
  - auto.
  - intros E. apply app_eq_nil in E. destruct E as [E1 E2].
    rewrite (C2 E2). auto.
Qed.

Lemma infer_items_ok items : forall wf wf',
  infer_items items wf = Ok wf' -> scanned wf (item_workflows items) wf'.
Proof.
  induction items as [|[k v] items IH]; simpl; intros wf wf' H.
  - injection H as <-. repeat split; auto. intros w [].
  - destruct v; try discriminate.
    destruct (same_workflow wf workflow) as [wf1|] eqn:S; simpl in H;
      [|discriminate].
    destruct (same_workflow_ok _ _ S) as (-> & Prev).
    apply (@scanned_app wf [workflow] (Some workflow)); [|now apply IH].
    split; [|split].
    + intros w [<- | []]. reflexivity.
    + intros w0 E. now rewrite (Prev w0 E).
    + discriminate.
Qed.

Lemma infer_items_raise items : forall wf e,
  infer_items items wf = Raise e -> exn_cls e = ValueError.
Proof.
  induction items as [|[k v] items IH]; simpl; intros wf e H; [discriminate|].
  destruct v; try (now injection H as <-).
  destruct (same_workflow wf workflow) as [wf1|] eqn:S; simpl in H.
  - eauto.
  - injection H as <-. eapply same_workflow_raise; eauto.
Qed.

Lemma infer_loop_ok l : forall wf wf',
  infer_loop l wf = Ok wf' -> scanned wf (workflows_of l) wf'.
Proof.
  induction l as [|a l IH]; simpl; intros wf wf' H.
  - injection H as <-. repeat split; auto. intros w [].
  - destruct a as [w0|w0|items|r]; try (now apply IH).
    + destruct (same_workflow wf w0) as [wf1|] eqn:S; simpl in H;
        [|discriminate].
      destruct (same_workflow_ok _ _ S) as (-> & Prev).
      apply (@scanned_app wf [w0] (Some w0)); [|now apply IH].
      split; [|split].
      * intros w [<- | []]. reflexivity.
      * intros w1 E. now rewrite (Prev w1 E).
      * discriminate.
    + destruct (infer_items items wf) as [wf1|] eqn:S; simpl in H;
        [|discriminate].
      apply (@scanned_app wf (item_workflows items) wf1); [|now apply IH].
      now apply infer_items_ok.
Qed.

Lemma infer_loop_raise l : forall wf e,
  infer_loop l wf = Raise e -> exn_cls e = ValueError.
Proof.
  induction l as [|a l IH]; simpl; intros wf e H; [discriminate|].
  destruct a as [w0|w0|items|r]; eauto.
  - destruct (same_workflow wf w0) as [wf1|] eqn:S; simpl in H; eauto.
    injection H as <-. eapply same_workflow_raise; eauto.
  - destruct (infer_items items wf) as [wf1|] eqn:S; simpl in H; eauto.
    injection H as <-. eapply infer_items_raise; eauto.
Qed.

Lemma infer_loop_filter l : forall wf,
  infer_loop (filter is_graph_bound l) wf = infer_loop l wf.
Proof.
  induction l as [|a l IH]; simpl; intros wf; auto.
  destruct a; simpl; auto.
  - destruct (same_workflow wf workflow); simpl; auto.
  - destruct (infer_items items wf); simpl; auto.
Qed.

Lemma infer_workflow_scan args kwargs :
  _infer_workflow args kwargs =
  infer_loop (args ++ dict_values kwargs) None.
Proof.
  unfold _infer_workflow, select_args.
  now rewrite <- filter_app, infer_loop_filter.
Qed.


Lemma infer_items_agree items w : forall wf,
  forallb (fun kv => match snd kv with
                     | VWorkflowDataFrame _ => true
                     | _ => false
                     end) items = true ->
  (forall w', In w' (item_workflows items) -> w' = w) ->
  (forall w0, wf = Some w0 -> w0 = w) ->
  infer_items items wf =
    Ok (match item_workflows items with [] => wf | _ => Some w end).
Proof.
  induction items as [|[k v] items IH]; simpl; intros wf WF All Prev; auto.
  apply andb_true_iff in WF. destruct WF as [Hv WF].
  destruct v as [|w1| |]; try discriminate. simpl in *.
  assert (w1 = w) by auto. subst w1.
  rewrite (@same_workflow_agree wf w Prev). simpl.
  rewrite IH; auto.
  - now destruct (item_workflows items).
  - now intros w0 [= ->].
Qed.

Lemma infer_loop_agree l w : forall wf,
  well_formed l = true ->
  (forall w', In w' (workflows_of l) -> w' = w) ->
  (forall w0, wf = Some w0 -> w0 = w) ->
  infer_loop l wf = Ok (match workflows_of l with [] => wf | _ => Some w end).
Proof.
  induction l as [|a l IH]; simpl; intros wf WF All Prev; auto.
  apply andb_true_iff in WF. destruct WF as [Ha WF].
  destruct a as [w1|w1|items|r]; simpl in *; auto.
  - assert (w1 = w) by auto. subst w1.
    rewrite (@same_workflow_agree wf w Prev). simpl.
    rewrite IH; auto.
    + now destruct (workflows_of l).
    + now intros w0 [= ->].
  - assert (AllI : forall w', In w' (item_workflows items) -> w' = w)
      by (intros w' HI; apply All, in_or_app; now left).
    assert (AllL : forall w', In w' (workflows_of l) -> w' = w)
      by (intros w' HI; apply All, in_or_app; now right).
    rewrite (@infer_items_agree items w wf Ha AllI Prev). simpl.
    destruct (item_workflows items) as [|w1 ws]; simpl.
    + now apply IH.
    + rewrite IH; auto.
      * now destruct (workflows_of l).
      * now intros w0 [= ->].
Qed.

Lemma need_add_workflow_true self k ps args kwargs :
  _params self = (k, _FugueWorkflowParam) :: ps ->
  dict_in k kwargs = false ->
  first_positional_is_workflow args = false ->
  _need_add_workflow self args kwargs = Ok true.
Proof.
  intros P K F. unfold _need_add_workflow, _first_annotation_is_workflow.
  rewrite P. simpl. rewrite K.
  unfold first_positional_is_workflow in F.
  destruct args as [|[] args]; auto; discriminate.
Qed.

(** C2: when the first declared parameter is the workflow handle and the
    call gives no workflow, neither under that parameter's name nor as
    first positional argument, the wrapper scans the positional, then the
    keyword arguments for graph-bound handles.  Two handles owned by
    different workflows make the call fail with [ValueError]; so does the
    absence of any handle, and every failure of the inference is a
    [ValueError]; otherwise the workflow that all handles share is put in
    front of the positional arguments and the call is delegated. *)
Theorem call_infers_workflow self k ps args kwargs :
  _params self = (k, _FugueWorkflowParam) :: ps ->
  dict_in k kwargs = false ->
  first_positional_is_workflow args = false ->
  let handles := handle_workflows args kwargs in
  ((exists w1 w2, In w1 handles /\ In w2 handles /\ w1 <> w2) ->
   exists e, __call__ self args kwargs = Raise e /\ exn_cls e = ValueError)
  /\ (handles = [] ->
      exists e, __call__ self args kwargs = Raise e /\ exn_cls e = ValueError)
  /\ (forall e, _infer_workflow args kwargs = Raise e ->
        __call__ self args kwargs = Raise e /\ exn_cls e = ValueError)
  /\ (forall w, _infer_workflow args kwargs = Ok (Some w) ->
        In w handles
        /\ (forall w', In w' handles -> w' = w)
        /\ __call__ self args kwargs =
             super_call self (VWorkflow w :: args) kwargs)
  /\ (forall w, In w handles ->
        (forall w', In w' handles -> w' = w) ->
        members_are_handles args kwargs = true ->
        __call__ self args kwargs =
          super_call self (VWorkflow w :: args) kwargs).
Proof.
  intros P K F handles.
  pose proof (@need_add_workflow_true self k ps args kwargs P K F) as Need.
  assert (Call : __call__ self args kwargs =
                 Py.bind (_infer_workflow args kwargs) (fun wf =>
                   match wf with
                   | None => Raise (mkExn ValueError [Lit "can't infer workflow"])
                   | Some w => super_call self (VWorkflow w :: args) kwargs
                   end))
    by (unfold __call__; now rewrite Need).
  assert (Failing : forall e, _infer_workflow args kwargs = Raise e ->
            __call__ self args kwargs = Raise e /\ exn_cls e = ValueError).
  { intros e I. split; [now rewrite Call, I|].
    rewrite infer_workflow_scan in I. eapply infer_loop_raise; eauto. }
  assert (Scan : forall wf, _infer_workflow args kwargs = Ok wf ->
            scanned None handles wf).
  { intros wf I. rewrite infer_workflow_scan in I.
    now apply infer_loop_ok in I. }
  split; [|split; [|split; [|split]]].
  - intros (w1 & w2 & H1 & H2 & N).
    destruct (_infer_workflow args kwargs) as [wf|e] eqn:I.
    + destruct (Scan wf eq_refl) as (All & _).
      exfalso. apply N.
      pose proof (All w1 H1) as E1. pose proof (All w2 H2) as E2. congruence.
    + exists e. now apply Failing.
  - intros E.
    destruct (_infer_workflow args kwargs) as [wf|e] eqn:I.
    + destruct (Scan wf eq_refl) as (_ & _ & Empty).
      rewrite (Empty E) in Call. rewrite Call. simpl.
      eexists. split; reflexivity.
    + exists e. now apply Failing.
  - exact Failing.
  - intros w I. destruct (Scan (Some w) I) as (All & _ & Empty).
    split; [|split].
    + destruct handles as [|w1 ws] eqn:E.
      * specialize (Empty eq_refl). discriminate.
      * pose proof (All w1 (or_introl eq_refl)) as E1.
        injection E1 as ->. now left.
    + intros w' HI. pose proof (All w' HI) as E1. congruence.
    + now rewrite Call, I.
  - intros w HI All WF. rewrite Call, infer_workflow_scan.
    rewrite (@infer_loop_agree (args ++ dict_values kwargs) w None WF All)
      by discriminate.
    fold (handle_workflows args kwargs). fold handles.
    destruct handles; [destruct HI | reflexivity].
Qed.

End workflow_module_facts.

Module workflow_module_examples.
Import workflow_module workflow_module_facts WorkflowSample.

Lemma call_infers_workflow_witness :
  __call__ module_wf_df [VWorkflowDataFrame 7] [] =
  super_call module_wf_df [VWorkflow 7; VWorkflowDataFrame 7] [].
Proof.
  refine (proj2 (proj2 (proj2 (proj2
            (@call_infers_workflow module_wf_df "wf"
               [("df", _WorkflowDataFrameParam)] [VWorkflowDataFrame 7] []
               _ _ _)))) 7 _ _ _).
  - reflexivity.
  - reflexivity.
  - reflexivity.
  - simpl. auto.
  - simpl. intros w' [<- | []]. reflexivity.
  - reflexivity.
Defined.

(** Two handles owned by different workflows, and a call without any
    handle. *)
Lemma call_with_two_workflows :
  exists e,
    __call__ module_wf_df [VWorkflowDataFrame 7] [("other", VWorkflowDataFrame 8)]
      = Raise e
    /\ exn_cls e = ValueError.
Proof. eexists. split; reflexivity. Qed.

Lemma call_without_handles :
  __call__ module_wf_df [VOther "1"] [] =
  Raise (mkExn ValueError [Lit "can't infer workflow"]).
Proof. reflexivity. Qed.

End workflow_module_examples.

(** ** More on the binding protocol *)

Module function_wrapper_more.
Import function_wrapper DictFacts function_wrapper_facts.

Local Unset Implicit Arguments.

Section More.
Context {DataFrame : Type} {api : DataFrameAPI DataFrame}.

Local Abbreviation value := (function_wrapper.value DataFrame).
Local Abbreviation error := (function_wrapper.error DataFrame).
Local Abbreviation wrapper := (@DataFrameFunctionWrapper DataFrame).

Implicit Types (self : wrapper) (h : df_handler) (v : AnnotatedParam)
  (k : string) (x ctx rt : value) (p : dict value)
  (ps : list (string * AnnotatedParam)).

(** *** Deleting and setting in a pool with unique keys *)

Lemma dict_del_filter p k :
  NoDup (dict_keys p) ->
  dict_del k p = filter (fun kx => negb (String.eqb k (fst kx))) p.
Proof.
  induction p as [|[k' x'] p IH]; simpl; intros ND; auto.
  inversion ND as [|? ? NI ND']; subst.
  destruct (String.eqb k k') eqn:E; simpl.
  - apply String.eqb_eq in E. subst k'. symmetry.
    apply forallb_filter_id.
    apply forallb_forall. intros [k1 x1] HI. simpl.
    apply negb_true_iff, String.eqb_neq. intros ->. apply NI.
    apply (in_map fst) in HI. exact HI.
  - now rewrite IH.
Qed.

Lemma dict_set_fresh p k x :
  dict_get k p = None -> dict_set k x p = (p ++ [(k, x)])%list.
Proof.
  induction p as [|[k' x'] p IH]; simpl; intros G; auto.
  destruct (String.eqb k k'); [discriminate|]. now rewrite IH.
Qed.

Lemma dict_get_app p1 p2 k :
  dict_get k (p1 ++ p2)%list =
  match dict_get k p1 with Some x => Some x | None => dict_get k p2 end.
Proof.
  induction p1 as [|[k' x'] p1 IH]; simpl; auto.
  destruct (String.eqb k k'); auto.
Qed.

Lemma dict_update_fresh p other :
  NoDup (dict_keys other) ->
  (forall k, In k (dict_keys other) -> dict_get k p = None) ->
  dict_update p other = (p ++ other)%list.
Proof.
  unfold dict_update. revert p.
  induction other as [|[k x] other IH]; simpl; intros p ND F.
  - now rewrite app_nil_r.
  - inversion ND as [|? ? NI ND']; subst.
    rewrite dict_set_fresh by auto.
    rewrite IH; auto.
    + now rewrite <- app_assoc.
    + intros k' HI. rewrite dict_get_app, F by auto. simpl.
      destruct (String.eqb k' k) eqn:E; auto.
      apply String.eqb_eq in E. subst k'. contradiction.
Qed.

(** *** The loop in closed form *)

Lemma filter_filter {A} (f g : A -> bool) (l : list A) :
  filter f (filter g l) = filter (fun a => g a && f a) l.
Proof.
  induction l as [|a l IH]; simpl; auto.
  destruct (g a); simpl; [destruct (f a)|]; now rewrite IH.
Qed.

Lemma flat_map_same {A B} (f g : A -> list B) (l : list A) :
  (forall a, In a l -> f a = g a) -> flat_map f l = flat_map g l.
Proof.
  induction l as [|a l IH]; simpl; intros E; auto.
  rewrite (E a), IH; auto.
Qed.

Lemma leftover_nil p : leftover [] p = p.
Proof.
  unfold leftover. simpl. induction p as [|kx p IH]; simpl; congruence.
Qed.

Lemma leftover_cons_unnamed ps p k v :
  is_named v = false -> leftover ((k, v) :: ps) p = leftover ps p.
Proof.
  intros N. unfold leftover. apply filter_ext. intros [k' x']. simpl.
  now rewrite N, andb_false_r.
Qed.

Lemma leftover_cons_absent ps p k v :
  dict_get k p = None -> leftover ((k, v) :: ps) p = leftover ps p.
Proof.
  intros G. unfold leftover. apply filter_ext_in. intros [k' x'] HI. simpl.
  destruct (String.eqb k k') eqn:E; auto.
  apply String.eqb_eq in E. subst k'.
  apply dict_get_None_keys in G. exfalso. apply G.
  apply (in_map fst) in HI. exact HI.
Qed.

Lemma leftover_cons_del ps p k v :
  NoDup (dict_keys p) -> is_named v = true ->
  leftover ((k, v) :: ps) p = leftover ps (dict_del k p).
Proof.
  intros ND N. unfold leftover. rewrite (dict_del_filter p k ND), filter_filter.
  apply filter_ext. intros [k' x']. simpl.
  rewrite N, andb_true_r. now destruct (String.eqb k k').
Qed.

Lemma bound_named_same ctx ps p p' :
  (forall kv, In kv ps -> dict_get (fst kv) p' = dict_get (fst kv) p) ->
  bound_named ctx ps p' = bound_named ctx ps p.
Proof.
  intros E. unfold bound_named. apply flat_map_same.
  intros kv HI. now rewrite (E kv HI).
Qed.

Lemma bind_param_unnamed ctx k v (b : binding) :
  is_named v = false ->
  bind_param ctx k v b =
    Ok (mkBinding (p_ b) (has_kw b || is_KeywordParam v) (rargs b)).
Proof.
  unfold bind_param, is_named, is_KeywordParam.
  destruct b as [p0 kw r]. simpl.
  destruct (kind v); try discriminate; intros _;
    now rewrite ?orb_false_r, ?orb_true_r.
Qed.

Lemma bind_param_optional ctx k v (b : binding) :
  is_named v = true -> dict_get k (p_ b) = None -> required v = false ->
  bind_param ctx k v b = Ok b.
Proof.
  unfold bind_param, is_named. intros N G R.
  destruct (kind v); try discriminate; now rewrite G, R.
Qed.

Lemma not_offending_named p k v :
  offending p (k, v) = false -> is_named v = true ->
  match dict_get k p with
  | Some x => acceptable v x = true
  | None => required v = false
  end.
Proof.
  unfold offending, not_a_DataFrame, missing_required, acceptable, dict_in,
    is_named. simpl.
  destruct (kind v); try discriminate;
    destruct (dict_get k p) as [x|]; simpl; intros O _; auto;
    try (apply orb_false_iff in O; destruct O as [O _];
         now apply negb_false_iff in O);
    try (destruct (required v); [discriminate | reflexivity]).
Qed.

(** Without an offending parameter the loop ends with the leftover
    arguments in the pool and the bound named parameters, in declared
    order, appended to [rargs]. *)
Lemma bind_params_exact ctx ps :
  NoDup (dict_keys ps) ->
  forall b : binding,
    NoDup (dict_keys (p_ b)) ->
    (forall kv, In kv ps -> offending (p_ b) kv = false) ->
    (forall k, In k (dict_keys ps) -> dict_get k (rargs b) = None) ->
    bind_params ctx ps b =
      Ok (mkBinding (leftover ps (p_ b))
                    (has_kw b || existsb is_KeywordParam (dict_values ps))
                    (rargs b ++ bound_named ctx ps (p_ b))%list).
Proof.
  induction ps as [|[k v] ps IH]; intros ND b NDp NoOff Fresh.
  - simpl. rewrite leftover_nil, orb_false_r, app_nil_r. now destruct b.
  - inversion ND as [|? ? NI ND']; subst. simpl bind_params.
    assert (Keys : forall kv, In kv ps -> fst kv <> k).
    { intros [k' v'] HI E. simpl in E. subst k'. apply NI.
      apply (in_map fst) in HI. exact HI. }
    destruct (is_named v) eqn:N.
    + pose proof (@not_offending_named (p_ b) k v
                    (NoOff _ (or_introl eq_refl)) N) as Head.
      destruct (dict_get k (p_ b)) as [x|] eqn:G.
      * rewrite (@bind_param_named DataFrame api ctx k v x b N G Head). simpl.
        rewrite IH; simpl; auto.
        { rewrite (leftover_cons_del ps (p_ b) k v NDp N).
          unfold bound_named at 2. simpl. rewrite N, G.
          fold (bound_named ctx ps (p_ b)).
          rewrite dict_set_fresh by (apply Fresh; now left).
          rewrite <- app_assoc. simpl.
          rewrite (@bound_named_same ctx ps (p_ b) (dict_del k (p_ b))).
          - unfold is_KeywordParam at 2. unfold is_named in N.
            destruct (kind v); try discriminate; reflexivity.
          - intros kv HI. now apply dict_get_del_other, Keys. }
        { now apply dict_del_NoDup. }
        { intros kv HI.
          rewrite (proj1 (@offending_same_lookup DataFrame (p_ b)
                            (dict_del k (p_ b)) kv
                            (@dict_get_del_other _ (p_ b) (fst kv) k (Keys kv HI)))).
          apply NoOff. now right. }
        { intros k' HI. rewrite dict_get_set_other.
          - apply Fresh. now right.
          - intros ->. contradiction. }
      * rewrite (@bind_param_optional ctx k v b N G Head). simpl.
        rewrite IH; auto.
        { rewrite (leftover_cons_absent ps (p_ b) k v G).
          unfold bound_named at 2. simpl. rewrite N, G. simpl.
          fold (bound_named ctx ps (p_ b)).
          unfold is_KeywordParam at 2. unfold is_named in N.
          destruct (kind v); try discriminate; reflexivity. }
        { intros kv HI. apply NoOff. now right. }
        { intros k' HI. apply Fresh. now right. }
    + rewrite (@bind_param_unnamed ctx k v b N). simpl.
      rewrite IH; simpl; auto.
      * rewrite (leftover_cons_unnamed ps (p_ b) k v N).
        unfold bound_named at 2. simpl. rewrite N. simpl.
        fold (bound_named ctx ps (p_ b)).
        now rewrite orb_assoc.
      * intros kv HI. apply NoOff. now right.
      * intros k' HI. apply Fresh. now right.
Qed.

Lemma bound_named_get_unnamed ctx ps p k :
  is_named_key ps k = false -> dict_get k (bound_named ctx ps p) = None.
Proof.
  unfold bound_named, is_named_key.
  induction ps as [|[k' v'] ps IH]; simpl; intros U; auto.
  apply orb_false_iff in U. destruct U as [U1 U2].
  rewrite dict_get_app, (IH U2).
  destruct (is_named v'); simpl; auto.
  destruct (dict_get k' p); simpl; auto.
  rewrite andb_true_r in U1. rewrite String.eqb_sym in U1. now rewrite U1.
Qed.

Lemma leftover_NoDup ps p :
  NoDup (dict_keys p) -> NoDup (dict_keys (leftover ps p)).
Proof.
  unfold leftover. induction p as [|[k x] p IH]; simpl; intros ND; auto.
  inversion ND as [|? ? NI ND']; subst.
  destruct (negb (is_named_key ps k)); simpl; auto.
  constructor; auto. intros HI. apply NI.
  unfold dict_keys in *. apply in_map_iff in HI.
  destruct HI as ([k' x'] & E & HI). simpl in E. subst k'.
  apply filter_In in HI. destruct HI as [HI _].
  apply (in_map fst) in HI. exact HI.
Qed.

Lemma leftover_keys_unnamed ps p k :
  In k (dict_keys (leftover ps p)) -> is_named_key ps k = false.
Proof.
  unfold leftover, dict_keys. intros HI. apply in_map_iff in HI.
  destruct HI as ([k' x'] & E & HI). simpl in E. subst k'.
  apply filter_In in HI. destruct HI as [_ HI]. simpl in HI.
  now apply negb_true_iff in HI.
Qed.

(** The binding of a call in closed form: the error of the first
    offending parameter; else, with a keyword capture, the bound named
    parameters followed by the leftover arguments; else the refusal of
    the leftover arguments, or the bound named parameters alone. *)
Lemma bind_arguments_exact self args kwargs iu ctx p :
  NoDup (dict_keys (_params self)) ->
  merged_pool self args kwargs = Ok p ->
  bind_arguments self args kwargs iu ctx =
    match find (offending p) (_params self) with
    | Some kv => Raise (binding_error p kv)
    | None =>
        let named := bound_named ctx (_params self) p in
        let rest := leftover (_params self) p in
        if existsb is_KeywordParam (dict_values (_params self))
        then Ok (named ++ rest)%list
        else match rest with
             | [] => Ok named
             | _ :: _ =>
                 if iu then Ok named
                 else Raise (mkExn ValueError
                               [FmtDict rest;
                                Lit " are not acceptable parameters"])
             end
    end.
Proof.
  intros ND M. rewrite bind_arguments_merged, M. simpl.
  pose proof (@merged_pool_NoDup DataFrame self args kwargs p M) as NDp.
  pose proof (@bind_params_first_offender DataFrame api ctx (_params self) ND
                (mkBinding p false []) NDp) as F.
  simpl in F.
  destruct (find (offending p) (_params self)) as [kv|] eqn:Fd.
  - now rewrite F.
  - rewrite (bind_params_exact ctx (_params self) ND (mkBinding p false []));
      simpl; auto.
    + destruct (existsb is_KeywordParam (dict_values (_params self))).
      * rewrite dict_update_fresh; auto.
        { now apply leftover_NoDup. }
        { intros k HI. apply bound_named_get_unnamed.
          eapply leftover_keys_unnamed; eauto. }
      * destruct (leftover (_params self) p); destruct iu; reflexivity.
    + intros kv HI. apply (find_none _ _ Fd kv HI).
Qed.

(** *** What the wrapped function receives *)

(** With a keyword capture in the signature, every call argument that no
    named parameter consumes is passed on to the wrapped function after
    the bound named parameters, whatever [ignore_unknown] says. *)
Theorem keyword_capture_passes_leftover self args kwargs iu os out ctx p :
  NoDup (dict_keys (_params self)) ->
  merged_pool self args kwargs = Ok p ->
  find (offending p) (_params self) = None ->
  existsb is_KeywordParam (dict_values (_params self)) = true ->
  let received :=
    (bound_named ctx (_params self) p ++ leftover (_params self) p)%list in
  run self args kwargs iu os out ctx =
    (Py.bind (_func self received)
       (fun rt => handle_return self rt os out ctx), [received])
  /\ (forall k x, dict_get k p = Some x -> is_named_key (_params self) k = false ->
        dict_get k received = Some x).
Proof.
  intros ND M F KW received. split.
  - apply run_bound. rewrite (bind_arguments_exact self args kwargs iu ctx p ND M).
    now rewrite F, KW.
  - intros k x G U. subst received.
    rewrite dict_get_app, (bound_named_get_unnamed ctx _ p k U).
    unfold leftover.
    pose proof (@merged_pool_NoDup DataFrame self args kwargs p M) as NDp.
    apply dict_get_Some_iff.
    + now apply leftover_NoDup.
    + apply filter_In. split.
      * now apply dict_get_In.
      * simpl. now rewrite U.
Qed.

(** Without a keyword capture the wrapped function receives the bound
    named parameters and nothing else: with [ignore_unknown] the
    leftover arguments are dropped, and no name that is not a declared
    named parameter ever reaches the function. *)
Theorem ignore_unknown_drops_leftover self args kwargs os out ctx p :
  NoDup (dict_keys (_params self)) ->
  merged_pool self args kwargs = Ok p ->
  find (offending p) (_params self) = None ->
  existsb is_KeywordParam (dict_values (_params self)) = false ->
  let received := bound_named ctx (_params self) p in
  run self args kwargs true os out ctx =
    (Py.bind (_func self received)
       (fun rt => handle_return self rt os out ctx), [received])
  /\ (forall k, is_named_key (_params self) k = false ->
        dict_get k received = None).
Proof.
  intros ND M F KW received. split.
  - apply run_bound. rewrite (bind_arguments_exact self args kwargs true ctx p ND M).
    rewrite F, KW. simpl. now destruct (leftover (_params self) p).
  - intros k U. now apply bound_named_get_unnamed.
Qed.

(** Without a keyword capture and without [ignore_unknown], the error
    for unexpected arguments carries exactly the call arguments that no
    named parameter consumes, in the order of the call, and the wrapped
    function is not called. *)
Theorem unexpected_arguments_are_listed self args kwargs os out ctx p :
  NoDup (dict_keys (_params self)) ->
  merged_pool self args kwargs = Ok p ->
  find (offending p) (_params self) = None ->
  existsb is_KeywordParam (dict_values (_params self)) = false ->
  leftover (_params self) p <> [] ->
  run self args kwargs false os out ctx =
    (Raise (mkExn ValueError
              [FmtDict (leftover (_params self) p);
               Lit " are not acceptable parameters"]), []).
Proof.
  intros ND M F KW NE. apply run_binding_failed.
  rewrite (bind_arguments_exact self args kwargs false ctx p ND M).
  rewrite F, KW. simpl.
  destruct (leftover (_params self) p); [contradiction | reflexivity].
Qed.





(** *** Positional arguments beyond the declared parameters *)

Lemma merge_positional_fits ps args : forall i p,
  (i + List.length args <= List.length ps)%nat ->
  exists p', merge_positional ps i args p = Ok p'.
Proof.
  induction args as [|a args IH]; simpl; intros i p L; eauto.
  unfold get_key_by_index.
  destruct (nth_error (dict_keys ps) i) as [k|] eqn:K; simpl.
  - apply IH. lia.
  - apply nth_error_None in K. unfold dict_keys in K.
    rewrite length_map in K. lia.
Qed.

Lemma merge_positional_overflow ps args : forall i p,
  (i <= List.length ps)%nat ->
  (List.length ps < i + List.length args)%nat ->
  exists e, merge_positional ps i args p = Raise e /\ exn_cls e = IndexError.
Proof.
  induction args as [|a args IH]; simpl; intros i p B L.
  - lia.
  - unfold get_key_by_index.
    destruct (nth_error (dict_keys ps) i) as [k|] eqn:K; simpl.
    + assert (i < List.length (dict_keys ps))%nat
        by (apply nth_error_Some; congruence).
      unfold dict_keys in H. rewrite length_map in H.
      apply IH; lia.
    + eexists. split; reflexivity.
Qed.

(** The positional arguments merge into the pool exactly when there are
    no more of them than declared parameters; one more makes [run] raise
    [IndexError] before anything is bound, the wrapped function not being
    called. *)
Theorem positional_arguments_must_fit self args kwargs :
  ((List.length args <= List.length (_params self))%nat ->
   exists p, merged_pool self args kwargs = Ok p)
  /\ ((List.length (_params self) < List.length args)%nat ->
      forall iu os out ctx,
      exists e, run self args kwargs iu os out ctx = (Raise e, [])
                /\ exn_cls e = IndexError).
Proof.
  split.
  - intros L. unfold merged_pool.
    destruct (merge_positional_fits (_params self) args 0 [] L) as [p0 ->].
    simpl. eauto.
  - intros L iu os out ctx.
    destruct (merge_positional_overflow (_params self) args 0 []
                (Nat.le_0_l _) L) as (e & Me & C).
    exists e. split; [|exact C].
    apply run_binding_failed. unfold bind_arguments. now rewrite Me.
Qed.

(** *** The handler classes *)

(** A handler needs an output schema exactly when its class derives from
    [_LocalNoSchemaDataFrameParam], the only class that overrides
    [need_schema]; the classes that declare a format hint are not among
    them. *)
Theorem need_schema_follows_the_hierarchy h :
  need_schema h = issubclass h _LocalNoSchemaDataFrameParam
  /\ (format_hint h <> None -> need_schema h = false).
Proof.
  split.
  - destruct h; reflexivity.
  - destruct h; simpl; intros N; try reflexivity; now contradiction N.
Qed.

(** For the abstract handle, converting to the function's input and back
    with the handle's own schema, or with no schema, gives the handle
    back. *)
Theorem DataFrameParam_round_trip (df : DataFrame) ctx :
  to_output_df DataFrameParam (to_input_data DataFrameParam df ctx)
               (Some (schema df)) ctx = Ok (VDataFrame df)
  /\ to_output_df DataFrameParam (to_input_data DataFrameParam df ctx)
                  None ctx = Ok (VDataFrame df).
Proof.
  split; [|reflexivity]. simpl.
  now rewrite (proj2 (Schema_eqb_eq (schema df) (schema df)) eq_refl).
Qed.

(** What a handler's own input conversion produces has the handler's
    shape, and every handler except the one for a single Arrow table
    counts it: the count is the number of rows of the converted value. *)
Theorem count_of_converted_input h (df : DataFrame) ctx :
  (forall d, is_bounded d = true ->
             df_count d = Z.of_nat (List.length (as_array_iterable d))) ->
  of_shape h (to_input_data h df ctx) = true
  /\ (h <> _PyArrowTableParam ->
      exists n, num_rows (to_input_data h df ctx) = Some n
                /\ count h (to_input_data h df ctx) = Ok (VInt (Z.of_nat n))).
Proof.
  intros Hc. split.
  - destruct h; simpl; try reflexivity; now destruct (native df).
  - intros Hh.
    destruct h; try congruence; simpl;
      try (eexists; split; [reflexivity|]; simpl;
           try (destruct (is_bounded _) eqn:B; [rewrite (Hc _ B)|]);
           reflexivity).
    + destruct (native df); simpl; eexists; (split; [reflexivity|]);
        now rewrite (sum_shape0_rows pd_shape pd_rows).
    + destruct (native df); simpl; eexists; (split; [reflexivity|]);
        now rewrite (sum_shape0_rows pa_shape pa_rows).
Qed.

(** *** Row mappings on output *)

Lemma project_cells names (r : dict_row) cells :
  project names r = Some cells ->
  List.length cells = List.length names
  /\ forall j (x : string), nth_error names j = Some x ->
                 nth_error cells j = dict_get x r.
Proof.
  revert cells. induction names as [|x names IH]; simpl; intros cells P.
  - injection P as <-. split; auto. intros [|j] y; discriminate.
  - destruct (dict_get x r) as [c|] eqn:G; [|discriminate].
    destruct (project names r) as [cs|]; [|discriminate].
    injection P as <-. destruct (IH cs eq_refl) as (L & Nth).
    split; [simpl; congruence|].
    intros [|j] y E; simpl in *.
    + injection E as <-. now rewrite G.
    + now apply Nth.
Qed.

Lemma project_total names (r : dict_row) :
  (forall x : string, In x names -> dict_in x r = true) ->
  exists cells, project names r = Some cells.
Proof.
  induction names as [|x names IH]; simpl; intros All; eauto.
  pose proof (All x (or_introl eq_refl)) as Hx. unfold dict_in in Hx.
  destruct (dict_get x r); [|discriminate].
  destruct IH as [cs ->]; eauto.
Qed.

Lemma project_all_rows names (rs : list dict_row) :
  (forall r (x : string), In r rs -> In x names -> dict_in x r = true) ->
  exists projected,
    project_all names rs = Some projected
    /\ List.length projected = List.length rs
    /\ forall i r, nth_error rs i = Some r ->
         exists cells, nth_error projected i = Some cells
                       /\ project names r = Some cells.
Proof.
  induction rs as [|r rs IH]; simpl; intros All.
  - exists []. repeat split. intros [|i] r; discriminate.
  - destruct (project_total names r) as [cells P];
      [intros x; apply All; now left|].
    destruct IH as (projected & PA & L & Nth);
      [intros r' x HI; apply All; now right|].
    rewrite P, PA. exists (cells :: projected).
    split; [reflexivity|]. split; [simpl; congruence|].
    intros [|i] r' E; simpl in *.
    + injection E as <-. eauto.
    + now apply Nth.
Qed.

(** When every row mapping has all the columns of the schema, the three
    row-mapping handlers build the output frame from the rows projected
    on the schema: one row per mapping, the cells in schema column order
    whatever the order of the mapping, keys outside the schema being
    dropped. *)
Theorem row_mappings_follow_the_schema (rows : list dict_row)
  (schema_ : option Schema) ctx :
  (forall r (x : string), In r rows ->
               In x (Schema_names (Schema_of schema_)) ->
               dict_in x r = true) ->
  exists projected,
    List.length projected = List.length rows
    /\ (forall i r, nth_error rows i = Some r ->
          exists cells,
            nth_error projected i = Some cells
            /\ List.length cells =
                 List.length (Schema_names (Schema_of schema_))
            /\ forall j (x : string),
                 nth_error (Schema_names (Schema_of schema_)) j = Some x ->
                 nth_error cells j = dict_get x r)
    /\ let built :=
         Py.bind (IterableDataFrame projected (Some (Schema_of schema_)))
                 (fun d => Ok (VDataFrame d)) in
       to_output_df _ListDictParam (VListDict rows) schema_ ctx = built
       /\ to_output_df _IterableDictParam (VIterableDict rows) schema_ ctx
          = built
       /\ to_output_df _EmptyAwareIterableDictParam
            (VEmptyAwareIterableDict rows) schema_ ctx = built.
Proof.
  intros All.
  destruct (project_all_rows (Schema_names (Schema_of schema_)) rows All)
    as (projected & PA & L & Nth).
  exists projected. split; [exact L|]. split.
  - intros i r E. destruct (Nth i r E) as (cells & Ec & P).
    exists cells. split; [exact Ec|]. now apply project_cells.
  - simpl. unfold dict_rows_to_output_df. rewrite PA. auto.
Qed.

(** *** Output conversion after the call *)

(** With [output] true and the abstract handle as return annotation, a
    declared output schema that differs from the schema of the returned
    handle makes [run] raise only after the wrapped function has been
    called, once; with an equal schema, or none, [run] returns the handle
    that the function returned. *)
Theorem schema_is_checked_after_the_call
  self args kwargs iu ctx received (d : DataFrame) (declared : Schema) :
  kind (_rt self) = TabularParam DataFrameParam ->
  bind_arguments self args kwargs iu ctx = Ok received ->
  _func self received = Ok (VDataFrame d) ->
  (schema d <> declared ->
   run self args kwargs iu (Some declared) true ctx =
     (Raise (mkExn AssertionError
               [Lit "Output schema mismatch "; FmtSchema (Some (schema d));
                Lit " vs "; FmtSchema (Some declared)]), [received]))
  /\ (schema d = declared ->
      run self args kwargs iu (Some declared) true ctx =
        (Ok (VDataFrame d), [received]))
  /\ run self args kwargs iu None true ctx = (Ok (VDataFrame d), [received]).
Proof.
  intros K B F.
  rewrite !(@run_bound DataFrame api self args kwargs iu _ true ctx received B).
  rewrite F. simpl. unfold handle_return. simpl. rewrite K. simpl.
  split; [|split].
  - intros N. destruct (Schema_eqb (schema d) declared) eqn:E.
    + apply Schema_eqb_eq in E. contradiction.
    + reflexivity.
  - intros E. apply Schema_eqb_eq in E. now rewrite E.
  - reflexivity.
Qed.

End More.
End function_wrapper_more.

(** ** More on the workflow-aware wrapper *)

Module workflow_module_more.
Import workflow_module workflow_module_facts.

Local Unset Implicit Arguments.
Local Open Scope py_scope.

Implicit Types (self : _ModuleFunctionWrapper) (args : list value)
  (kwargs : dict value) (wf : option FugueWorkflow) (w : FugueWorkflow).

(** *** Calls that name their workflow *)

(** The inference is skipped, and the call delegated as it is, whenever
    the first declared parameter is not the workflow handle, or the call
    gives that parameter by keyword, or its first positional argument is
    a workflow: the handles of such a call are not looked at, so that
    handles of different workflows raise nothing here. *)
Theorem explicit_workflow_skips_inference self k v ps args kwargs :
  _params self = (k, v) :: ps ->
  (v <> _FugueWorkflowParam
   \/ dict_in k kwargs = true
   \/ first_positional_is_workflow args = true) ->
  __call__ self args kwargs = super_call self args kwargs.
Proof.
  intros P H. unfold __call__, _need_add_workflow, _first_annotation_is_workflow.
  rewrite P. simpl.
  destruct v; simpl; try reflexivity.
  destruct H as [H | [H | H]].
  - contradiction.
  - now rewrite H.
  - destruct (dict_in k kwargs); [reflexivity|].
    unfold first_positional_is_workflow in H.
    destruct args as [|[] args]; try discriminate. reflexivity.
Qed.

(** *** When the inference succeeds *)

Lemma infer_items_members items : forall wf wf',
  infer_items items wf = Ok wf' ->
  forallb (fun kv => match snd kv with
                     | VWorkflowDataFrame _ => true
                     | _ => false
                     end) items = true.
Proof.
  induction items as [|[k v] items IH]; simpl; intros wf wf' H; auto.
  destruct v; try discriminate. simpl.
  destruct (same_workflow wf workflow) as [wf1|]; simpl in H; [|discriminate].
  eapply IH; eauto.
Qed.

Lemma infer_loop_members l : forall wf wf',
  infer_loop l wf = Ok wf' -> well_formed l = true.
Proof.
  induction l as [|a l IH]; simpl; intros wf wf' H; auto.
  destruct a as [w0|w0|items|r]; simpl; try solve [eapply IH; eauto].
  - destruct (same_workflow wf w0) as [wf1|]; simpl in H; [|discriminate].
    eapply IH; eauto.
  - destruct (infer_items items wf) as [wf1|] eqn:I; simpl in H;
      [|discriminate].
    rewrite (infer_items_members items wf wf1 I). simpl. eapply IH; eauto.
Qed.

(** The inference yields a workflow exactly when the call has a handle,
    all its handles are owned by that workflow, and every member of every
    collection is a handle; it yields nothing, without failing, exactly
    when the call has no handle at all. *)
Theorem inference_succeeds_iff args kwargs :
  (forall w,
     _infer_workflow args kwargs = Ok (Some w)
     <-> (In w (handle_workflows args kwargs)
          /\ (forall w', In w' (handle_workflows args kwargs) -> w' = w)
          /\ members_are_handles args kwargs = true))
  /\ (_infer_workflow args kwargs = Ok None
      <-> (handle_workflows args kwargs = []
           /\ members_are_handles args kwargs = true)).
Proof.
  rewrite infer_workflow_scan.
  unfold handle_workflows, members_are_handles.
  set (l := (args ++ dict_values kwargs)%list).
  split.
  - intros w. split.
    + intros I. destruct (@infer_loop_ok l None (Some w) I) as (All & _ & Empty).
      split; [|split].
      * destruct (workflows_of l) as [|w1 ws] eqn:E.
        { specialize (Empty eq_refl). discriminate. }
        pose proof (All w1 (or_introl eq_refl)) as E1.
        injection E1 as ->. now left.
      * intros w' HI. pose proof (All w' HI) as E1. congruence.
      * eapply infer_loop_members; eauto.
    + intros (HI & All & WF).
      rewrite (@infer_loop_agree l w None WF All) by discriminate.
      destruct (workflows_of l); [destruct HI | reflexivity].
  - split.
    + intros I. destruct (@infer_loop_ok l None None I) as (All & _ & _).
      split; [|eapply infer_loop_members; eauto].
      destruct (workflows_of l) as [|w1 ws]; auto.
      pose proof (All w1 (or_introl eq_refl)). discriminate.
    + intros (E & WF).
      rewrite (@infer_loop_agree l 0%nat None WF).
      * now rewrite E.
      * rewrite E. intros w' [].
      * discriminate.
Qed.

(** *** Arity *)

(** A module has no output, a single output or a multiple output, and
    exactly one of the three; a module that takes a collection of
    dataframes has input. *)
Theorem output_arity_is_exclusive self :
  (has_no_output self = true /\ has_single_output self = false
   /\ has_multiple_output self = false
   \/ has_no_output self = false /\ has_single_output self = true
      /\ has_multiple_output self = false
   \/ has_no_output self = false /\ has_single_output self = false
      /\ has_multiple_output self = true)
  /\ (has_dfs_input self = true -> has_input self = true).
Proof.
  split.
  - unfold has_no_output, has_single_output, has_multiple_output.
    destruct (_rt self); simpl; auto.
  - unfold has_dfs_input, has_input. intros H.
    apply existsb_exists in H. destruct H as (x & HI & Hx).
    apply existsb_exists. exists x. split; auto.
    destruct x; auto; discriminate.
Qed.

End workflow_module_more.

(** ** The binding protocol and the inference on sample calls *)

Module more_examples.
Import function_wrapper function_wrapper_facts function_wrapper_more Sample.

Lemma sample_frames_count (d : frame) :
  is_bounded d = true ->
  df_count d = Z.of_nat (List.length (as_array_iterable d)).
Proof. reflexivity. Qed.

Lemma NoDup_ab : NoDup ["a"; "b"].
Proof. repeat constructor; simpl; intuition discriminate. Qed.

Lemma NoDup_a_kwargs : NoDup ["a"; "kwargs"].
Proof. repeat constructor; simpl; intuition discriminate. Qed.

Lemma keyword_capture_passes_leftover_witness :
  run wrapper_kw [] [("z", VInt 9); ("a", VInt 1)] false None true VNone
  = (Ok (VInt 2), [[("a", VInt 1); ("z", VInt 9)]]).
Proof.
  refine (proj1 (@keyword_capture_passes_leftover frame frame_api wrapper_kw
            [] [("z", VInt 9); ("a", VInt 1)] false None true VNone
            [("z", VInt 9); ("a", VInt 1)] NoDup_a_kwargs _ _ _));
    reflexivity.
Defined.

Lemma ignore_unknown_drops_leftover_witness :
  run wrapper_ab [] [("a", VInt 1); ("b", VInt 2); ("c", VInt 3)]
      true None true VNone
  = (Ok (VInt 2), [[("a", VInt 1); ("b", VInt 2)]]).
Proof.
  refine (proj1 (@ignore_unknown_drops_leftover frame frame_api wrapper_ab
            [] [("a", VInt 1); ("b", VInt 2); ("c", VInt 3)] None true VNone
            [("a", VInt 1); ("b", VInt 2); ("c", VInt 3)] NoDup_ab _ _ _));
    reflexivity.
Defined.

Lemma unexpected_arguments_are_listed_witness :
  run wrapper_ab [] [("d", VInt 4); ("a", VInt 1); ("b", VInt 2); ("c", VInt 3)]
      false None true VNone
  = (Raise (mkExn ValueError
              [FmtDict [("d", VInt 4); ("c", VInt 3)];
               Lit " are not acceptable parameters"]), []).
Proof.
  refine (@unexpected_arguments_are_listed frame frame_api wrapper_ab
            [] [("d", VInt 4); ("a", VInt 1); ("b", VInt 2); ("c", VInt 3)]
            None true VNone
            [("d", VInt 4); ("a", VInt 1); ("b", VInt 2); ("c", VInt 3)]
            NoDup_ab _ _ _ _); try reflexivity; discriminate.
Defined.



Lemma positional_arguments_must_fit_witness :
  exists e,
    run wrapper_ab [VInt 1; VInt 2; VInt 3] [] false None true VNone
      = (Raise e, [])
    /\ exn_cls e = IndexError.
Proof.
  refine (proj2 (@positional_arguments_must_fit frame frame_api wrapper_ab
            [VInt 1; VInt 2; VInt 3] []) _ false None true VNone).
  simpl. lia.
Defined.

Lemma need_schema_follows_the_hierarchy_witness :
  need_schema _PandasParam = false.
Proof.
  refine (proj2 (need_schema_follows_the_hierarchy _PandasParam) _).
  discriminate.
Defined.

Lemma count_of_converted_input_witness :
  exists n,
    num_rows (to_input_data _IterablePandasParam one_row VNone) = Some n
    /\ count _IterablePandasParam
         (to_input_data _IterablePandasParam one_row VNone)
       = Ok (VInt (Z.of_nat n)).
Proof.
  refine (proj2 (@count_of_converted_input frame frame_api
            _IterablePandasParam one_row VNone sample_frames_count) _).
  discriminate.
Defined.

Lemma count_is_number_of_rows_witness :
  count _ListDictParam (@VListDict frame [[("x", CInt 1)]; [("x", CInt 2)]])
  = Ok (VInt 2).
Proof.
  refine (@count_is_number_of_rows frame frame_api _ListDictParam
            (VListDict [[("x", CInt 1)]; [("x", CInt 2)]]) 2
            sample_frames_count _ _ _); try reflexivity; discriminate.
Defined.

Lemma row_mappings_follow_the_schema_witness :
  exists projected,
    List.length projected = 1%nat
    /\ to_output_df _ListDictParam
         (@VListDict frame [[("y", CStr "s"); ("x", CInt 1)]])
         (Some [("x", "long"); ("y", "str")]) VNone
       = Py.bind (IterableDataFrame projected
                    (Some [("x", "long"); ("y", "str")]))
                 (fun d => Ok (VDataFrame d)).
Proof.
  destruct (@row_mappings_follow_the_schema frame frame_api
              [[("y", CStr "s"); ("x", CInt 1)]]
              (Some [("x", "long"); ("y", "str")]) VNone)
    as (projected & L & _ & B & _).
  - intros r x [<- | []] [<- | [<- | []]]; reflexivity.
  - exists projected. split; [exact L | exact B].
Defined.

Lemma schema_is_checked_after_the_call_witness :
  run wrapper_df [VInt 1] [] false (Some [("y", "str")]) true VNone
  = (Raise (mkExn AssertionError
              [Lit "Output schema mismatch ";
               FmtSchema (Some [("x", "long")]);
               Lit " vs "; FmtSchema (Some [("y", "str")])]),
     [[("a", VInt 1)]]).
Proof.
  refine (proj1 (@schema_is_checked_after_the_call frame frame_api wrapper_df
            [VInt 1] [] false VNone [("a", VInt 1)] one_row [("y", "str")]
            _ _ _) _); try reflexivity; discriminate.
Defined.

End more_examples.

Module workflow_more_examples.
Import workflow_module workflow_module_facts workflow_module_more WorkflowSample.

Lemma explicit_workflow_skips_inference_witness :
  __call__ module_wf_df [VWorkflow 1; VWorkflowDataFrame 7]
           [("other", VWorkflowDataFrame 8)]
  = super_call module_wf_df [VWorkflow 1; VWorkflowDataFrame 7]
               [("other", VWorkflowDataFrame 8)].
Proof.
  refine (@explicit_workflow_skips_inference module_wf_df "wf"
            _FugueWorkflowParam [("df", _WorkflowDataFrameParam)]
            [VWorkflow 1; VWorkflowDataFrame 7]
            [("other", VWorkflowDataFrame 8)] _ _).
  - reflexivity.
  - right. right. reflexivity.
Defined.

Lemma output_arity_is_exclusive_witness : has_input module_dfs = true.
Proof.
  refine (proj2 (output_arity_is_exclusive module_dfs) _). reflexivity.
Defined.

End workflow_more_examples.

(** ** The signature patterns *)

Module Re_facts.
Import Re.

Local Unset Implicit Arguments.

Lemma lang_Chr c s : lang (Chr c) s -> s = [c].
Proof. now inversion 1. Qed.

Lemma lang_Seq r1 r2 s :
  lang (Seq r1 r2) s ->
  exists s1 s2, s = (s1 ++ s2)%list /\ lang r1 s1 /\ lang r2 s2.
Proof. inversion 1; subst. eauto. Qed.

Lemma lang_Alt r1 r2 s : lang (Alt r1 r2) s -> lang r1 s \/ lang r2 s.
Proof. inversion 1; subst; auto. Qed.

Lemma lang_Opt r s : lang (Opt r) s -> lang r s \/ s = [].
Proof.
  intros H. apply lang_Alt in H. destruct H as [H | H]; auto.
  inversion H. auto.
Qed.

Lemma lang_nil_nullable r s : lang r s -> s = [] -> nullable r = true.
Proof.
  induction 1; intros E; simpl; try discriminate; auto.
  - apply app_eq_nil in E. destruct E as [E1 E2].
    now rewrite IHlang1, IHlang2.
  - now rewrite IHlang.
  - rewrite IHlang by assumption. apply orb_true_r.
Qed.

Lemma nullable_lang r : nullable r = true <-> lang r [].
Proof.
  split; [|intros H; now apply (lang_nil_nullable r [])].
  induction r; simpl; intros N; try discriminate.
  - constructor.
  - apply andb_true_iff in N. destruct N as [N1 N2].
    apply (@LSeq r1 r2 [] []); auto.
  - apply orb_true_iff in N. destruct N as [N | N];
      [apply LAltL | apply LAltR]; auto.
  - constructor.
Qed.

Lemma deriv_sound c r : forall s, lang (deriv c r) s -> lang r (c :: s).
Proof.
  induction r; simpl; intros s H.
  - inversion H.
  - inversion H.
  - destruct (Ascii.eqb c c0) eqn:E; inversion H; subst.
    apply Ascii.eqb_eq in E. subst. constructor.
  - destruct (existsb (Ascii.eqb c) cs) eqn:E; inversion H; subst.
    apply existsb_exists in E. destruct E as (c' & HI & E).
    apply Ascii.eqb_eq in E. subst. now constructor.
  - destruct (nullable r1) eqn:N.
    + destruct (lang_Alt _ _ _ H) as [HL | HR].
      * destruct (lang_Seq _ _ _ HL) as (s1 & s2 & -> & H1 & H2).
        apply (@LSeq r1 r2 (c :: s1) s2); auto.
      * apply (@LSeq r1 r2 [] (c :: s)); auto. now apply nullable_lang.
    + destruct (lang_Seq _ _ _ H) as (s1 & s2 & -> & H1 & H2).
      apply (@LSeq r1 r2 (c :: s1) s2); auto.
  - destruct (lang_Alt _ _ _ H) as [HL | HR];
      [apply LAltL | apply LAltR]; auto.
  - destruct (lang_Seq _ _ _ H) as (s1 & s2 & -> & H1 & H2).
    apply (@LStarApp r (c :: s1) s2); auto.
Qed.

Lemma deriv_complete c r l :
  lang r l -> forall t, l = c :: t -> lang (deriv c r) t.
Proof.
  induction 1; intros t E; simpl; try discriminate.
  - injection E as E1 E2. subst. rewrite Ascii.eqb_refl. constructor.
  - injection E as E1 E2. subst.
    assert (X : existsb (Ascii.eqb c) cs = true).
    { apply existsb_exists. exists c. split; auto. apply Ascii.eqb_refl. }
    rewrite X. constructor.
  - destruct s1 as [|c1 s1]; simpl in E.
    + subst s2. rewrite (lang_nil_nullable r1 [] H eq_refl).
      apply LAltR. now apply IHlang2.
    + injection E as E1 E2. subst.
      destruct (nullable r1); [apply LAltL|]; constructor; auto.
  - apply LAltL. auto.
  - apply LAltR. auto.
  - destruct s1 as [|c1 s1]; simpl in E.
    + now apply IHlang2.
    + injection E as E1 E2. subst. constructor; auto.
Qed.

Lemma matches_lang r s : matches r s = true <-> lang r s.
Proof.
  revert r. induction s as [|c s IH]; intros r; simpl.
  - apply nullable_lang.
  - rewrite IH. split.
    + apply deriv_sound.
    + intros H. now apply (deriv_complete c r (c :: s)).
Qed.

Lemma lang_Star_Chr c r s :
  lang r s -> r = Star (Chr c) -> Forall (eq c) s.
Proof.
  induction 1; intros E; try discriminate.
  - constructor.
  - injection E as ->. apply lang_Chr in H. subst s1. simpl.
    constructor; auto.
Qed.

End Re_facts.

Module workflow_signature_facts.
Import Re Re_facts workflow_module.

Local Unset Implicit Arguments.
Local Open Scope char_scope.

(** The strings of [params_re], cut into the workflow marker, the
    dataframe parameters, the other parameters and the keyword capture. *)
Lemma params_re_parts l :
  lang params_re l ->
  exists hd body xs zs,
    l = (hd ++ body ++ xs ++ zs)%list
    /\ (hd = [] \/ hd = ["w"])
    /\ (body = ["u"] \/ Forall (eq "v") body)
    /\ (hd = [] -> body <> [])
    /\ Forall (eq "x") xs
    /\ (zs = [] \/ zs = ["z"]).
Proof.
  unfold params_re. intros H.
  destruct (lang_Seq _ _ _ H) as (gx & zs & -> & Hgx & Hz).
  destruct (lang_Seq _ _ _ Hgx) as (g & xs & -> & Hg & Hx).
  assert (Z : zs = [] \/ zs = ["z"]).
  { destruct (lang_Opt _ _ Hz) as [Hz' | ->]; auto.
    right. now apply lang_Chr. }
  pose proof (lang_Star_Chr "x" _ _ Hx eq_refl) as X.
  destruct (lang_Alt _ _ _ Hg) as [G | G];
    destruct (lang_Seq _ _ _ G) as (hd & body & -> & Hh & Hb);
    exists hd, body, xs, zs; rewrite <- !app_assoc.
  - assert (W : hd = [] \/ hd = ["w"]).
    { destruct (lang_Opt _ _ Hh) as [Hh' | ->]; auto.
      right. now apply lang_Chr. }
    destruct (lang_Alt _ _ _ Hb) as [B | B].
    + apply lang_Chr in B. subst body.
      repeat split; auto. intros _. discriminate.
    + destruct (lang_Seq _ _ _ B) as (v1 & vs & -> & Hv1 & Hvs).
      apply lang_Chr in Hv1. subst v1.
      pose proof (lang_Star_Chr "v" _ _ Hvs eq_refl) as V.
      repeat split; auto.
      * right. simpl. constructor; auto.
      * intros _. discriminate.
  - apply lang_Chr in Hh. subst hd.
    repeat split; auto; try discriminate.
    destruct (lang_Alt _ _ _ Hb) as [B | B].
    + destruct (lang_Opt _ _ B) as [B' | ->].
      * left. now apply lang_Chr.
      * right. constructor.
    + right. apply (lang_Star_Chr "v" _ _ B eq_refl).
Qed.

Lemma count_none (a b : ascii) (l : list ascii) :
  Forall (eq a) l -> a <> b -> count_occ ascii_dec l b = 0%nat.
Proof.
  intros F N. apply count_occ_not_In. intros HI.
  rewrite Forall_forall in F. apply N. now apply F.
Qed.

(** Every code string without a newline that [params_re] accepts starts
    with [w], [u] or [v] and has no [w] after its first code; it is made
    of the codes [w], [u], [v], [x] and [z] only; it has at most one [u],
    and no [v] beside a [u].  So a module function has at least one
    parameter, takes its workflow first if it takes one, and takes
    either one collection of dataframes or single dataframes, never
    both. *)
Theorem params_re_signatures (s : string) :
  let codes := list_ascii_of_string s in
  ~ In newline codes ->
  re_match params_re s = true ->
  (exists c rest,
      codes = c :: rest /\ In c ["w"; "u"; "v"] /\ ~ In "w" rest)
  /\ (forall c, In c codes -> In c ["w"; "u"; "v"; "x"; "z"])
  /\ (In "u" codes -> ~ In "v" codes)
  /\ (count_occ ascii_dec codes "u" <= 1)%nat.
Proof.
  intros codes NL M. unfold re_match in M. fold codes in M.
  assert (L : lang params_re codes).
  { apply orb_true_iff in M. destruct M as [M | M].
    - now apply matches_lang.
    - destruct (rev codes) as [|c l'] eqn:R; [discriminate|].
      apply andb_true_iff in M. destruct M as [E _].
      apply Ascii.eqb_eq in E. subst c. exfalso. apply NL.
      apply in_rev. rewrite R. now left. }
  clear M NL.
  destruct (params_re_parts _ L) as (hd & body & xs & zs & E & W & B & NE & X & Z).
  rewrite E. clear E L.
  assert (Xc : forall c, In c xs -> c = "x")
    by (intros c HI; rewrite Forall_forall in X; symmetry; now apply X).
  assert (Zc : forall c, In c zs -> c = "z")
    by (intros c HI; destruct Z as [-> | ->];
        [destruct HI | destruct HI as [<- | []]; reflexivity]).
  assert (Bc : forall c, In c body -> c = "u" \/ c = "v").
  { intros c HI. destruct B as [-> | V].
    - destruct HI as [<- | []]. now left.
    - rewrite Forall_forall in V. right. symmetry. now apply V. }
  assert (Tail : ~ In "w" (xs ++ zs)%list).
  { intros HI. apply in_app_or in HI.
    destruct HI as [HI | HI]; [apply Xc in HI | apply Zc in HI];
      discriminate. }
  split; [|split; [|split]].
  - destruct W as [-> | ->]; simpl.
    + destruct body as [|b body]; [now contradiction NE|].
      exists b, (body ++ xs ++ zs)%list. split; [reflexivity|]. split.
      * destruct (Bc b (or_introl eq_refl)) as [-> | ->]; simpl; auto.
      * intros HI. apply in_app_or in HI. destruct HI as [HI | HI]; auto.
        destruct (Bc "w" (or_intror HI)); discriminate.
    + exists "w", (body ++ xs ++ zs)%list. split; [reflexivity|].
      split; [simpl; auto|].
      intros HI. apply in_app_or in HI. destruct HI as [HI | HI]; auto.
      destruct (Bc "w" HI); discriminate.
  - intros c HI. rewrite !in_app_iff in HI.
    destruct HI as [HI | [HI | [HI | HI]]].
    + destruct W as [-> | ->]; [destruct HI|].
      destruct HI as [<- | []]. simpl. auto.
    + destruct (Bc c HI) as [-> | ->]; simpl; auto.
    + rewrite (Xc c HI). simpl. auto 6.
    + rewrite (Zc c HI). simpl. auto 6.
  - intros HU HV. rewrite !in_app_iff in HU, HV.
    assert (Ub : In "u" body).
    { destruct HU as [HI | [HI | [HI | HI]]]; auto.
      - destruct W as [-> | ->]; [destruct HI|].
        destruct HI as [HI | []]. discriminate.
      - apply Xc in HI. discriminate.
      - apply Zc in HI. discriminate. }
    assert (Vb : In "v" body).
    { destruct HV as [HI | [HI | [HI | HI]]]; auto.
      - destruct W as [-> | ->]; [destruct HI|].
        destruct HI as [HI | []]. discriminate.
      - apply Xc in HI. discriminate.
      - apply Zc in HI. discriminate. }
    destruct B as [-> | V].
    + destruct Vb as [Vb | []]. discriminate.
    + rewrite Forall_forall in V. apply V in Ub. discriminate.
  - rewrite !count_occ_app.
    assert (C1 : count_occ ascii_dec hd "u" = 0%nat)
      by (destruct W as [-> | ->]; reflexivity).
    assert (C2 : (count_occ ascii_dec body "u" <= 1)%nat).
    { destruct B as [-> | V]; [simpl; lia|].
      rewrite (count_none "v" "u" body V); [lia | discriminate]. }
    assert (C3 : count_occ ascii_dec xs "u" = 0%nat)
      by (apply (count_none "x" "u" xs X); discriminate).
    assert (C4 : count_occ ascii_dec zs "u" = 0%nat)
      by (destruct Z as [-> | ->]; reflexivity).
    lia.
Qed.

(** [return_re] accepts, among the strings without a newline, exactly
    the one-letter codes [u], [v] and [n]. *)
Theorem return_re_codes (s : string) :
  ~ In newline (list_ascii_of_string s) ->
  (re_match return_re s = true <->
   (s = "u" \/ s = "v" \/ s = "n")%string).
Proof.
  intros NL. split.
  - unfold re_match. intros M.
    assert (L : matches return_re (list_ascii_of_string s) = true).
    { apply orb_true_iff in M. destruct M as [M | M]; auto.
      destruct (rev (list_ascii_of_string s)) as [|c l'] eqn:R;
        [discriminate|].
      apply andb_true_iff in M. destruct M as [E _].
      apply Ascii.eqb_eq in E. subst c. exfalso. apply NL.
      apply in_rev. rewrite R. now left. }
    clear M NL. apply matches_lang in L. unfold return_re in L.
    inversion L as [| |cs c HI| | | | |]; subst.
    rewrite <- (string_of_list_ascii_of_string s), <- H0. simpl.
    destruct HI as [<- | [<- | [<- | []]]]; auto.
  - intros [-> | [-> | ->]]; reflexivity.
Qed.

End workflow_signature_facts.

Module workflow_signature_examples.
Import Re workflow_module workflow_signature_facts.

Local Open Scope char_scope.

Lemma params_re_signatures_witness :
  (count_occ ascii_dec (list_ascii_of_string "wvvxz") "u" <= 1)%nat.
Proof.
  refine (proj2 (proj2 (proj2 (params_re_signatures "wvvxz" _ _)))).
  - simpl. unfold newline. intuition discriminate.
  - reflexivity.
Defined.

Lemma return_re_codes_witness : re_match return_re "v" = true.
Proof.
  refine (proj2 (return_re_codes "v" _) _).
  - simpl. unfold newline. intuition discriminate.
  - right. left. reflexivity.
Defined.

(** Signatures that the pattern refuses: no parameter at all, a
    collection beside a single dataframe, a workflow that is not first. *)
Lemma params_re_refuses :
  re_match params_re "" = false
  /\ re_match params_re "uv" = false
  /\ re_match params_re "vw" = false
  /\ re_match params_re "wx" = true.
Proof. repeat split. Qed.

End workflow_signature_examples.
